(** * Weather poller: location lookup, bounded-retry fetch, console presenter

    A shallow embedding of [core/weather.py] and [main.py].

    The two coroutines of the module ([weather], [fetch_api]) and the plain
    function [print_weather] are sequential: every [await] is a point where
    the single task waits, never one where another task of the program
    runs.  They are embedded as computations in a monad that
    threads the observable world (HTTP requests issued, console lines,
    sleeps) and propagates Python exceptions. *)

From stdpp Require Import gmap strings list.
From Stdlib Require Import ZArith QArith Ascii.

#[local] Set Warnings "-register-all".
#[local] Close Scope Q_scope.
#[local] Open Scope string_scope.
#[local] Open Scope list_scope.
#[local] Open Scope nat_scope.

(** ** Text *)

Module Text.

(** Python [str] values are kept as their UTF-8 bytes.  [lower] and
    [capitalize] follow [str.lower] and [str.capitalize] on text made of
    ASCII and of the 33 letters of the Russian alphabet (two-byte sequences
    led by 0xD0 or 0xD1), which covers every literal of the program.  Every
    other code point passes through unchanged, also where Python would
    change its case (an accented Latin capital, a sharp s at the head of a
    word): on such text the two functions are not [str.lower] and
    [str.capitalize].  Which names lower-case to a key of the coordinate
    table is not affected: only the ASCII spellings of that key do, in
    Python as here. *)

Definition nl : string := String (ascii_of_nat 10) EmptyString.
Definition dquote : string := String (ascii_of_nat 34) EmptyString.

Definition byte (n : N) : ascii := ascii_of_N n.

Definition ascii_lower (c : ascii) : ascii :=
  let n := N_of_ascii c in
  if ((65 <=? n) && (n <=? 90))%N then byte (n + 32) else c.

Definition ascii_upper (c : ascii) : ascii :=
  let n := N_of_ascii c in
  if ((97 <=? n) && (n <=? 122))%N then byte (n - 32) else c.

(** Lower case of the code point encoded as [c1 c2], when [c1] leads a
    two-byte sequence. *)
Definition pair_lower (c1 c2 : ascii) : string :=
  let a := N_of_ascii c1 in
  let b := N_of_ascii c2 in
  let keep := String c1 (String c2 EmptyString) in
  if (a =? 208)%N then
    if ((144 <=? b) && (b <=? 159))%N
    then String (byte 208) (String (byte (b + 32)) EmptyString)
    else if ((160 <=? b) && (b <=? 175))%N
    then String (byte 209) (String (byte (b - 32)) EmptyString)
    else if (b =? 129)%N
    then String (byte 209) (String (byte 145) EmptyString)
    else keep
  else keep.

Definition pair_upper (c1 c2 : ascii) : string :=
  let a := N_of_ascii c1 in
  let b := N_of_ascii c2 in
  let keep := String c1 (String c2 EmptyString) in
  if (a =? 208)%N then
    if ((176 <=? b) && (b <=? 191))%N
    then String (byte 208) (String (byte (b - 32)) EmptyString)
    else keep
  else if (a =? 209)%N then
    if ((128 <=? b) && (b <=? 143))%N
    then String (byte 208) (String (byte (b + 32)) EmptyString)
    else if (b =? 145)%N
    then String (byte 208) (String (byte 129) EmptyString)
    else keep
  else keep.

Definition two_byte_lead (c : ascii) : bool :=
  let n := N_of_ascii c in ((192 <=? n) && (n <=? 223))%N.

(** [s.lower()] *)
Fixpoint lower (s : string) : string :=
  match s with
  | EmptyString => EmptyString
  | String c1 rest =>
      match rest with
      | String c2 rest' =>
          if two_byte_lead c1 then pair_lower c1 c2 +:+ lower rest'
          else String (ascii_lower c1) (lower rest)
      | EmptyString => String (ascii_lower c1) EmptyString
      end
  end.

(** [s.capitalize()]: first character in upper case, the rest in lower
    case. *)
Definition capitalize (s : string) : string :=
  match s with
  | EmptyString => EmptyString
  | String c1 rest =>
      match rest with
      | String c2 rest' =>
          if two_byte_lead c1 then pair_upper c1 c2 +:+ lower rest'
          else String (ascii_upper c1) (lower rest)
      | EmptyString => String (ascii_upper c1) EmptyString
      end
  end.

(** [sep.join(parts)] *)
Definition join (sep : string) (parts : list string) : string :=
  String.concat sep parts.

End Text.

(** ** Values *)

(** What [response.json()] can produce, the [Any] of [dict[str, Any]].  A
    float is carried as its [repr] text; the program never computes with
    one. *)
Inductive Any : Type :=
| PyNone
| PyBool (b : bool)
| PyInt (n : Z)
| PyFloat (repr : string)
| PyStr (s : string)
| PyList (items : list Any)
| PyDict (entries : gmap string Any).

Definition is_None (v : Any) : bool :=
  match v with PyNone => true | _ => false end.

(** The exception classes the module raises, catches or lets through.
    [HTTPError] stands for [httpx.HTTPError] and every subclass of it, which
    is how the [except] clause of [fetch_api] sees them. *)
Inductive exn : Type :=
| KeyError (msg : string)
| ValueError (msg : string)
| TypeError
| AttributeError
| HTTPError (msg : string)
| JSONDecodeError (msg : string)
| OverflowError
| OtherError (msg : string).

(** [tuple[tuple[str, str], ...]]: (provider key, display label) pairs. *)
Abbreviation MetricSpec := (list (string * string)).

(** The [params] dictionary of a request.  The two float literals of a
    coordinate are kept as the decimal fractions they are written as. *)
Record Params : Type := {
  latitude : Q;
  longitude : Q;
  current : string
}.

(** ** Observable behaviour *)

(** One replacement field of an f-string after evaluation: literal text or
    a value still to be rendered by [str()]. *)
Inductive piece : Type :=
| Lit (s : string)
| Val (v : Any).

Inductive event : Type :=
| EvGet (url : string) (params : Params)
| EvPrint (line : list piece)
| EvSleep (seconds : Z).

(** A response object, as far as the program calls it: what
    [raise_for_status()] raises, if anything, and what [json()] raises or
    returns. *)
Record Response : Type := {
  status_error : option exn;
  body : exn + Any
}.

(** One HTTP exchange as [client.get] experiences it. *)
Inductive Attempt : Type :=
| GetRaises (e : exn)
| GetReturns (r : Response).

(** The behaviour of an [AsyncClient] instance over its lifetime: the
    exchange its n-th call to [get] runs into (counting from 0). *)
Abbreviation AsyncClient := (nat → Attempt).

Record world : Type := {
  requests : nat;
  trace : list event
}.

Definition world0 : world := {| requests := 0; trace := [] |}.

(** ** The monad of effects *)

Inductive result (A : Type) : Type :=
| Return (a : A)
| Raise (e : exn)
| Unfinished.
Arguments Return {A} a.
Arguments Raise {A} e.
Arguments Unfinished {A}.

Definition M (A : Type) : Type := world → result A * world.

#[global] Instance M_ret : MRet M := λ A a w, (Return a, w).

#[global] Instance M_bind : MBind M := λ A B k m w,
  match m w with
  | (Return a, w') => k a w'
  | (Raise e, w') => (Raise e, w')
  | (Unfinished, w') => (Unfinished, w')
  end.

Definition raise {A} (e : exn) : M A := λ w, (Raise e, w).

Definition unfinished {A} : M A := λ w, (Unfinished, w).

(** [try: body  except ...: handler]; [handler e = None] when no clause
    matches the class of [e]. *)
Definition try_except {A} (body : M A) (handler : exn → option (M A)) : M A :=
  λ w,
    match body w with
    | (Raise e, w') =>
        match handler e with
        | Some h => h w'
        | None => (Raise e, w')
        end
    | r => r
    end.

Definition emit (ev : event) : M unit :=
  λ w, (Return tt, {| requests := requests w; trace := trace w ++ [ev] |}).

Definition print (line : list piece) : M unit := emit (EvPrint line).

(** The least [int] that does not fit a [float]: 2^1024 - 2^970, half way
    between the largest float and 2^1024, is rounded up to 2^1024. *)
Definition float_limit : Z := Eval cbv in (2 ^ 1024 - 2 ^ 970)%Z.

Definition float_overflows (n : Z) : bool := (float_limit <=? n)%Z.

(** [await asyncio.sleep(seconds)] for an [int].  A delay that is not
    positive yields at once.  A positive one is added to the clock of the
    event loop, a float: an [int] that does not fit a float makes that
    addition raise [OverflowError], and nothing is slept. *)
Definition sleep (seconds : Z) : M unit :=
  if float_overflows seconds then raise OverflowError
  else emit (EvSleep seconds).

(** [for x in xs: body] *)
Fixpoint for_each {A} (xs : list A) (body : A → M unit) : M unit :=
  match xs with
  | [] => mret tt
  | x :: xs' => body x;; for_each xs' body
  end.

(** [await client.get(url, params=params)] *)
Definition client_get (client : AsyncClient) (url : string) (params : Params)
  : M Response :=
  λ w,
    let w' := {| requests := S (requests w);
                 trace := trace w ++ [EvGet url params] |} in
    match client (requests w) with
    | GetRaises e => (Raise e, w')
    | GetReturns r => (Return r, w')
    end.

(** [response.raise_for_status()] *)
Definition raise_for_status (response : Response) : M unit :=
  match status_error response with
  | Some e => raise e
  | None => mret tt
  end.

(** [response.json()] *)
Definition json (response : Response) : M Any :=
  match body response with
  | inl e => raise e
  | inr data => mret data
  end.

(** [d.get(key)] on a parsed value. *)
Definition dict_get (d : Any) (key : string) : M Any :=
  match d with
  | PyDict entries => mret (default PyNone (entries !! key))
  | _ => raise AttributeError
  end.

(** [d[key]] on a parsed value, for a [str] key. *)
Definition subscript (d : Any) (key : string) : M Any :=
  match d with
  | PyDict entries =>
      match entries !! key with
      | Some v => mret v
      | None => raise (KeyError key)
      end
  | _ => raise TypeError
  end.

(** ** The program *)

Definition CITY_COORD : gmap string (Q * Q) :=
  {[ "moscow" := ((55751244 # 1000000)%Q, (37618423 # 1000000)%Q) ]}.

Definition URL_API_OPEN_METEO : string := "https://api.open-meteo.com/v1/forecast".

Definition PARAM_CURRENT_DEFAULT : MetricSpec :=
  [ ("temperature_2m", "температура");
    ("relative_humidity_2m", "влажность");
    ("pressure_msl", "давление") ].

(** The [while repeat_fetch < 5] loop of [fetch_api]; [fuel] bounds the
    number of times the loop test is evaluated. *)
Fixpoint fetch_loop (fuel : nat) (client : AsyncClient) (params : Params)
    (repeat_fetch : Z) : M Any :=
  match fuel with
  | O => unfinished
  | S fuel' =>
      if bool_decide (repeat_fetch < 5)%Z then
        response ← client_get client URL_API_OPEN_METEO params;
        returned ← try_except
          (raise_for_status response;;
           data ← json response;
           mret (Some data))
          (λ e, match e with
                | HTTPError msg =>
                    Some (print [Lit "Ошибка: "; Lit msg];; mret None)
                | JSONDecodeError msg =>
                    Some (print [Lit "Ошибка: "; Lit msg];; mret None)
                | _ => None
                end);
        match returned with
        | Some data => mret data
        | None =>
            sleep 3;;
            fetch_loop fuel' client params (repeat_fetch + 1)%Z
        end
      else raise (ValueError "Данные для data_weather отсутствуют.")
  end.

Definition fetch_api (client : AsyncClient) (city_coord : Q * Q)
    (param_current : MetricSpec) : M Any :=
  let params := {| latitude := city_coord.1;
                   longitude := city_coord.2;
                   current := Text.join "," (param_current.*1) |} in
  fetch_loop 6 client params 0.

Definition print_weather (city_name : string) (data_weather : Any)
    (param_current : MetricSpec) : M unit :=
  let units := "current_units" in
  let current := "current" in
  section ← dict_get data_weather current;
  malformed ← (if is_None section then mret true
               else section_units ← dict_get data_weather units;
                    mret (is_None section_units));
  if malformed : bool
  then raise (KeyError "Неверный состав полученных от API данных.")
  else
    data ← subscript data_weather current;
    data_units ← subscript data_weather units;
    print [Lit (Text.nl +:+ "Погода в городе " +:+ city_name)];;
    for_each param_current (λ param,
      let '(param_key, param_title) := param in
      try_except
        (let title := Text.capitalize param_title in
         section ← subscript data_weather current;
         value ← subscript section param_key;
         section_units ← subscript data_weather units;
         unit ← subscript section_units param_key;
         print [Lit (title +:+ ": "); Val value; Lit " "; Val unit])
        (λ e, match e with
              | KeyError _ =>
                  Some (print [Lit ("Ошибка: данные " +:+ Text.dquote +:+ param_key
                                    +:+ Text.dquote +:+ " отсутствуют или неполные.")])
              | _ => None
              end)).

(** The [while True] loop of [weather]; [cycles] bounds the number of
    polling cycles that are run, and the computation is [Unfinished] when
    they have all completed. *)
Fixpoint weather_loop (cycles : nat) (client : AsyncClient) (city : string)
    (interval_sec : Z) (param_current : MetricSpec) : M unit :=
  match cycles with
  | O => unfinished
  | S cycles' =>
      city_coord ← (match CITY_COORD !! city with
                    | Some c => mret c
                    | None => raise (KeyError city)
                    end);
      data_weather ← fetch_api client city_coord param_current;
      print_weather (Text.capitalize city) data_weather param_current;;
      sleep interval_sec;;
      weather_loop cycles' client city interval_sec param_current
  end.

(** [client] is the instance that [AsyncClient()] creates. *)
Definition weather (cycles : nat) (client : AsyncClient) (city : string)
    (interval_sec : Z) (param_current : option MetricSpec) : M unit :=
  let city := Text.lower city in
  let param_current := default PARAM_CURRENT_DEFAULT param_current in
  if bool_decide (CITY_COORD !! city = None)
  then raise (KeyError ("Отсутствуют данные по данному городу: " +:+ city))
  else weather_loop cycles client city interval_sec param_current.

(** [asyncio.run(weather.weather(city))] with [interval_sec] at its default
    of 5: an exception leaving [weather] leaves [main] and ends the
    process. *)
Definition main (cycles : nat) (client : AsyncClient) : M unit :=
  let city := "moscow" in
  weather cycles client city 5 None.


(** ** Reading a run *)

Definition is_get (ev : event) : bool :=
  match ev with EvGet _ _ => true | _ => false end.

Definition is_sleep (ev : event) : bool :=
  match ev with EvSleep _ => true | _ => false end.

Definition is_print (ev : event) : bool :=
  match ev with EvPrint _ => true | _ => false end.

(** Number of HTTP requests, of delays, of console lines in a trace. *)
Definition gets (t : list event) : nat := List.length (filter is_get t).
Definition sleeps (t : list event) : nat := List.length (filter is_sleep t).
Definition prints (t : list event) : nat := List.length (filter is_print t).

(** What the guarded block of a round ends with: the exception that
    [raise_for_status()] or, after it, [json()] raises, or the parsed body. *)
Definition guarded (r : Response) : exn + Any :=
  match status_error r with
  | Some e => inl e
  | None => body r
  end.

(** An attempt fails the way the retry loop handles: a response arrives
    and, inside the guarded block, an [HTTPError] is raised (the status is
    not a success) or a [JSONDecodeError] is raised (the body does not
    parse).  The result is the text of the error. *)
Definition attempt_failure (a : Attempt) : option string :=
  match a with
  | GetReturns r =>
      match guarded r with
      | inl (HTTPError msg) => Some msg
      | inl (JSONDecodeError msg) => Some msg
      | _ => None
      end
  | GetRaises _ => None
  end.

(** An attempt succeeds: success status and a body that parses. *)
Definition attempt_payload (a : Attempt) : option Any :=
  match a with
  | GetReturns r =>
      match guarded r with
      | inr data => Some data
      | inl _ => None
      end
  | GetRaises _ => None
  end.

(** How many of the attempts numbered [from], [from + 1], ... fail in a row,
    counting at most [budget] of them. *)
Fixpoint leading_failures (client : AsyncClient) (from budget : nat) : nat :=
  match budget with
  | O => 0
  | S budget' =>
      match attempt_failure (client from) with
      | Some _ => S (leading_failures client (S from) budget')
      | None => 0
      end
  end.

Definition request_params (city_coord : Q * Q) (param_current : MetricSpec)
  : Params :=
  {| latitude := city_coord.1;
     longitude := city_coord.2;
     current := Text.join "," (param_current.*1) |}.

(** What one failed attempt leaves in the trace. *)
Definition failed_round (params : Params) (a : Attempt) : list event :=
  [ EvGet URL_API_OPEN_METEO params;
    EvPrint [Lit "Ошибка: "; Lit (default EmptyString (attempt_failure a))];
    EvSleep 3 ].

(** The trace of the [k] failed attempts numbered [from], [from + 1], ... *)
Fixpoint failed_rounds (params : Params) (client : AsyncClient)
    (from k : nat) : list event :=
  match k with
  | O => []
  | S k' => failed_round params (client from)
              ++ failed_rounds params client (S from) k'
  end.

Definition after (w : world) (n : nat) (evs : list event) : world :=
  {| requests := requests w + n; trace := trace w ++ evs |}.

(** Python's [s.split(sep)] for a one-character separator. *)
Fixpoint split_on (sep : ascii) (s : string) : list string :=
  match s with
  | EmptyString => [EmptyString]
  | String c rest =>
      if Ascii.eqb c sep then EmptyString :: split_on sep rest
      else match split_on sep rest with
           | [] => [String c EmptyString]
           | part :: parts => String c part :: parts
           end
  end.

Fixpoint has_char (c : ascii) (s : string) : bool :=
  match s with
  | EmptyString => false
  | String c' rest => Ascii.eqb c' c || has_char c rest
  end.

Definition comma : ascii := ascii_of_nat 44.

(** The line the presenter owes to one metric of a structurally valid
    payload: value and unit when both are there, a diagnostic naming the
    key otherwise. *)
Definition metric_line (data data_units : gmap string Any)
    (param : string * string) : event :=
  let '(param_key, param_title) := param in
  match data !! param_key, data_units !! param_key with
  | Some value, Some unit =>
      EvPrint [Lit (Text.capitalize param_title +:+ ": "); Val value;
               Lit " "; Val unit]
  | _, _ =>
      EvPrint [Lit ("Ошибка: данные " +:+ Text.dquote +:+ param_key
                    +:+ Text.dquote +:+ " отсутствуют или неполные.")]
  end.

Definition header_line (city_name : string) : event :=
  EvPrint [Lit (Text.nl +:+ "Погода в городе " +:+ city_name)].

Definition exhausted : exn := ValueError "Данные для data_weather отсутствуют.".

Definition malformed : exn := KeyError "Неверный состав полученных от API данных.".

(** A request event carries the coordinate and, as [current], the
    provider keys of the metric set joined by commas. *)
Definition sends_keys (city_coord : Q * Q) (param_current : MetricSpec)
    (ev : event) : Prop :=
  match ev with
  | EvGet url params =>
      url = URL_API_OPEN_METEO
      ∧ latitude params = city_coord.1
      ∧ longitude params = city_coord.2
      ∧ current params = Text.join "," (param_current.*1)
  | _ => True
  end.

(** An attempt ends with an exception that no [except] clause of the retry
    loop takes: the one [client.get] raises, or one of another class than
    [HTTPError] and [JSONDecodeError] raised inside the guarded block. *)
Definition attempt_escape (a : Attempt) : option exn :=
  match a with
  | GetRaises e => Some e
  | GetReturns r =>
      match guarded r with
      | inl (HTTPError _) => None
      | inl (JSONDecodeError _) => None
      | inl e => Some e
      | inr _ => None
      end
  end.

(** The exception with which [print_weather] turns a payload down before
    printing anything: [get] does not exist on a value that is not a dict,
    and the guard of line 122 refuses a dict in which a section is missing
    or [None]. *)
Definition presenter_rejects (data_weather : Any) : option exn :=
  match data_weather with
  | PyDict entries =>
      if is_None (default PyNone (entries !! "current"))
         || is_None (default PyNone (entries !! "current_units"))
      then Some malformed
      else None
  | _ => Some AttributeError
  end.

(** What the poller may do for a given coordinate, metric set and
    interval: requests to the provider's URL with that coordinate and those
    keys, console lines, and sleeps of 3 (between retries) or of the
    interval (between cycles). *)
Definition poller_event (city_coord : Q * Q) (param_current : MetricSpec)
    (interval_sec : Z) (ev : event) : Prop :=
  match ev with
  | EvGet url params =>
      url = URL_API_OPEN_METEO ∧ params = request_params city_coord param_current
  | EvPrint _ => True
  | EvSleep seconds => seconds = 3%Z ∨ seconds = interval_sec
  end.

(** Both sections of a payload are mappings. *)
Definition well_formed (data_weather : Any) : Prop :=
  ∃ entries data data_units,
    data_weather = PyDict entries
    ∧ entries !! "current" = Some (PyDict data)
    ∧ entries !! "current_units" = Some (PyDict data_units).

Definition is_mapping (v : Any) : bool :=
  match v with PyDict _ => true | _ => false end.

(** The keys, in their order, with a comma between neighbours: the words
    with which the [current] parameter is specified. *)
Fixpoint comma_joined (keys : list string) : string :=
  match keys with
  | [] => EmptyString
  | key :: rest =>
      match rest with
      | [] => key
      | _ :: _ => key +:+ "," +:+ comma_joined rest
      end
  end.

(** ** Sample collaborators *)

Definition moscow_coord : Q * Q :=
  ((55751244 # 1000000)%Q, (37618423 # 1000000)%Q).

Definition sample_payload : Any :=
  PyDict {[
    "current" := PyDict {[ "temperature_2m" := PyFloat "5.2";
                           "relative_humidity_2m" := PyInt 80;
                           "pressure_msl" := PyInt 1013 ]};
    "current_units" := PyDict {[ "temperature_2m" := PyStr "°C";
                                 "relative_humidity_2m" := PyStr "%";
                                 "pressure_msl" := PyStr "hPa" ]} ]}.

Definition response_ok (data : Any) : Attempt :=
  GetReturns {| status_error := None; body := inr data |}.

(** A response with a non-success status; its body is never read. *)
Definition response_status (msg : string) : Attempt :=
  GetReturns {| status_error := Some (HTTPError msg); body := inr PyNone |}.

Definition response_garbled (msg : string) : Attempt :=
  GetReturns {| status_error := None; body := inl (JSONDecodeError msg) |}.

(** The provider answers 503 to every request. *)
Definition always_503 : AsyncClient :=
  λ _, response_status "Server error '503 Service Unavailable'".

(** A bad status, then a body that is not JSON, then a good answer. *)
Definition third_time_lucky : AsyncClient :=
  λ n, match n with
       | 0 => response_status "Server error '502 Bad Gateway'"
       | 1 => response_garbled "Expecting value"
       | _ => response_ok sample_payload
       end.

(** One good answer, then an outage. *)
Definition outage_after_first : AsyncClient :=
  λ n, match n with
       | 0 => response_ok sample_payload
       | _ => response_status "Server error '503 Service Unavailable'"
       end.

(** The body is not valid UTF-8: [json()] raises a [UnicodeDecodeError],
    which is not a [JSONDecodeError]. *)
Definition response_not_utf8 : Attempt :=
  GetReturns {| status_error := None;
                body := inl (OtherError "'utf-8' codec can't decode byte 0xff") |}.

(** A bad status, then a body that cannot be decoded at all. *)
Definition bad_then_binary : AsyncClient :=
  λ n, match n with
       | 0 => response_status "Server error '502 Bad Gateway'"
       | _ => response_not_utf8
       end.

(** Every answer is the sample payload. *)
Definition always_ok : AsyncClient := λ _, response_ok sample_payload.

(** The provider answers with an error document that has no sections. *)
Definition error_document : Any :=
  PyDict {[ "error" := PyBool true; "reason" := PyStr "Invalid parameter" ]}.

(** One good answer, then a body that cannot be decoded at all. *)
Definition ok_then_binary : AsyncClient :=
  λ n, match n with
       | 0 => response_ok sample_payload
       | _ => response_not_utf8
       end.

(** The first request times out ([httpx.ReadTimeout], a subclass of
    [httpx.HTTPError], raised by [client.get]); the provider would answer
    the second. *)
Definition timeout_then_ok : AsyncClient :=
  λ n, match n with
       | 0 => GetRaises (HTTPError "The read operation timed out")
       | _ => response_ok sample_payload
       end.

(** A metric set that asks for the pressure twice. *)
Definition pressure_twice : MetricSpec :=
  [ ("pressure_msl", "давление"); ("temperature_2m", "температура");
    ("pressure_msl", "давление") ].

(** No connection can be made: [client.get] itself raises
    [httpx.ConnectError], a subclass of [httpx.HTTPError]. *)
Definition unreachable_host : AsyncClient :=
  λ _, GetRaises (HTTPError "All connection attempts failed").

(** ** The retry loop, one round at a time *)

Ltac run :=
  unfold mbind, M_bind, mret, M_ret, try_except, client_get, raise_for_status,
    json, dict_get, subscript, print, sleep, emit, raise, unfinished; simpl.

Lemma fetch_loop_failure fuel client params repeat_fetch w msg :
  (repeat_fetch < 5)%Z →
  attempt_failure (client (requests w)) = Some msg →
  fetch_loop (S fuel) client params repeat_fetch w
  = fetch_loop fuel client params (repeat_fetch + 1)
      (after w 1 (failed_round params (client (requests w)))).
Proof.
  intros Hlt Hfail. simpl. rewrite bool_decide_eq_true_2 by done.
  unfold after, failed_round. rewrite Hfail. simpl.
  unfold attempt_failure, guarded in Hfail. run.
  destruct (client (requests w)) as [e|r]; [done|].
  rewrite Nat.add_1_r.
  destruct (status_error r) as [[]|], (body r) as [[]|]; simplify_eq;
    simpl; by rewrite <- ?app_assoc.
Qed.

Lemma fetch_loop_success fuel client params repeat_fetch w data :
  (repeat_fetch < 5)%Z →
  attempt_payload (client (requests w)) = Some data →
  fetch_loop (S fuel) client params repeat_fetch w
  = (Return data, after w 1 [EvGet URL_API_OPEN_METEO params]).
Proof.
  intros Hlt Hok. simpl. rewrite bool_decide_eq_true_2 by done.
  unfold after, attempt_payload, guarded in *. run.
  destruct (client (requests w)) as [e|r]; [done|].
  rewrite Nat.add_1_r.
  destruct (status_error r) as [[]|], (body r) as [[]|]; simplify_eq; done.
Qed.

Lemma fetch_loop_get_raises fuel client params repeat_fetch w e :
  (repeat_fetch < 5)%Z →
  client (requests w) = GetRaises e →
  fetch_loop (S fuel) client params repeat_fetch w
  = (Raise e, after w 1 [EvGet URL_API_OPEN_METEO params]).
Proof.
  intros Hlt Hget. simpl. rewrite bool_decide_eq_true_2 by done.
  unfold after. run. rewrite Hget, Nat.add_1_r. done.
Qed.

Lemma fetch_loop_exhausted fuel client params repeat_fetch w :
  (5 ≤ repeat_fetch)%Z →
  fetch_loop (S fuel) client params repeat_fetch w
  = (Raise (ValueError "Данные для data_weather отсутствуют."), w).
Proof.
  intros Hge. simpl. rewrite bool_decide_eq_false_2 by lia. done.
Qed.

Lemma after_after w n m evs evs' :
  after (after w n evs) m evs' = after w (n + m) (evs ++ evs').
Proof. unfold after. simpl. by rewrite Nat.add_assoc, app_assoc. Qed.

Lemma after_0_nil w : after w 0 [] = w.
Proof. destruct w. unfold after. simpl. by rewrite Nat.add_0_r, app_nil_r. Qed.

(** [k] failed attempts in a row take the loop through [k] rounds. *)
Lemma fetch_loop_failures k : ∀ fuel client params repeat_fetch w,
  (repeat_fetch + Z.of_nat k ≤ 5)%Z →
  (∀ i, i < k → is_Some (attempt_failure (client (requests w + i)))) →
  fetch_loop (k + fuel) client params repeat_fetch w
  = fetch_loop fuel client params (repeat_fetch + Z.of_nat k)
      (after w k (failed_rounds params client (requests w) k)).
Proof.
  induction k as [|k IH]; intros fuel client params repeat_fetch w Hle Hfail.
  - simpl. by rewrite after_0_nil, Z.add_0_r.
  - destruct (Hfail 0) as [msg Hmsg]; [lia|]. rewrite Nat.add_0_r in Hmsg.
    change (S k + fuel) with (S (k + fuel)).
    rewrite (fetch_loop_failure _ _ _ _ _ msg) by (done || lia).
    rewrite IH.
    + rewrite after_after. simpl requests. rewrite Nat.add_1_r.
      simpl. f_equal. lia.
    + lia.
    + intros i Hi. simpl. replace (requests w + 1 + i) with (requests w + S i) by lia.
      apply Hfail. lia.
Qed.

(** An attempt that is not a handled failure ends the loop, whatever it
    is: a payload is returned, or an exception leaves [fetch_api]. *)
Lemma fetch_loop_stop fuel client params repeat_fetch w :
  (repeat_fetch < 5)%Z →
  attempt_failure (client (requests w)) = None →
  ∃ res, res ≠ Unfinished ∧
    fetch_loop (S fuel) client params repeat_fetch w
    = (res, after w 1 [EvGet URL_API_OPEN_METEO params]).
Proof.
  intros Hlt Hnone. simpl. rewrite bool_decide_eq_true_2 by done.
  unfold after, attempt_failure, guarded in *. run.
  destruct (client (requests w)) as [e|r]; rewrite Nat.add_1_r.
  - by exists (Raise e).
  - destruct (status_error r) as [e|]; [|destruct (body r) as [e|data]];
      try (destruct e; simplify_eq; by eexists (Raise _)).
    by exists (Return data).
Qed.

Lemma leading_failures_le client budget : ∀ from,
  leading_failures client from budget ≤ budget.
Proof.
  induction budget as [|b IH]; intros from; simpl; [lia|].
  destruct (attempt_failure (client from)); [|lia].
  specialize (IH (S from)). lia.
Qed.

Lemma leading_failures_fail client budget : ∀ from i,
  i < leading_failures client from budget →
  is_Some (attempt_failure (client (from + i))).
Proof.
  induction budget as [|b IH]; intros from i; simpl; [lia|].
  destruct (attempt_failure (client from)) as [msg|] eqn:Hfrom; [|lia].
  intros Hi. destruct i as [|i].
  - rewrite Nat.add_0_r, Hfrom. by eexists.
  - replace (from + S i) with (S from + i) by lia. apply IH. lia.
Qed.

Lemma leading_failures_stop client budget : ∀ from,
  leading_failures client from budget < budget →
  attempt_failure (client (from + leading_failures client from budget)) = None.
Proof.
  induction budget as [|b IH]; intros from; simpl; [lia|].
  destruct (attempt_failure (client from)) as [msg|] eqn:Hfrom.
  - intros Hlt. replace (from + S (leading_failures client (S from) b))
      with (S from + leading_failures client (S from) b) by lia.
    apply IH. lia.
  - intros _. by rewrite Nat.add_0_r.
Qed.

(** Counting events. *)
Lemma gets_app t1 t2 : gets (t1 ++ t2) = gets t1 + gets t2.
Proof. unfold gets. by rewrite filter_app, length_app. Qed.

Lemma sleeps_app t1 t2 : sleeps (t1 ++ t2) = sleeps t1 + sleeps t2.
Proof. unfold sleeps. by rewrite filter_app, length_app. Qed.

Lemma prints_app t1 t2 : prints (t1 ++ t2) = prints t1 + prints t2.
Proof. unfold prints. by rewrite filter_app, length_app. Qed.

Lemma failed_rounds_S params client from k :
  failed_rounds params client from (S k)
  = failed_round params (client from) ++ failed_rounds params client (S from) k.
Proof. reflexivity. Qed.

Lemma gets_failed_rounds params client k : ∀ from,
  gets (failed_rounds params client from k) = k.
Proof.
  induction k as [|k IH]; intros from; [done|].
  rewrite failed_rounds_S, gets_app, IH. done.
Qed.

Lemma sleeps_failed_rounds params client k : ∀ from,
  sleeps (failed_rounds params client from k) = k.
Proof.
  induction k as [|k IH]; intros from; [done|].
  rewrite failed_rounds_S, sleeps_app, IH. done.
Qed.

Lemma prints_failed_rounds params client k : ∀ from,
  prints (failed_rounds params client from k) = k.
Proof.
  induction k as [|k IH]; intros from; [done|].
  rewrite failed_rounds_S, prints_app, IH. done.
Qed.

(** The whole run of [fetch_api], for a client whose next [k] attempts
    fail and whose attempt after them, if the budget reaches it, does not. *)
Lemma fetch_api_run client city_coord param_current w k :
  k ≤ 5 →
  (∀ i, i < k → is_Some (attempt_failure (client (requests w + i)))) →
  (k < 5 → attempt_failure (client (requests w + k)) = None) →
  let params := request_params city_coord param_current in
  ∃ res, res ≠ Unfinished ∧
    fetch_api client city_coord param_current w
    = (res, after w (k + (if bool_decide (k < 5) then 1 else 0))
              (failed_rounds params client (requests w) k
                 ++ (if bool_decide (k < 5)
                     then [EvGet URL_API_OPEN_METEO params] else []))).
Proof.
  intros Hk Hfail Hstop params. unfold fetch_api. fold (request_params city_coord param_current).
  fold params.
  replace 6 with (k + S (5 - k)) by lia.
  rewrite fetch_loop_failures by (done || lia).
  rewrite Z.add_0_l. case_bool_decide as Hlt.
  - destruct (fetch_loop_stop (5 - k) client params (Z.of_nat k)
      (after w k (failed_rounds params client (requests w) k)))
      as (res & Hres & ->); [lia|by apply Hstop|].
    exists res. split; [done|]. by rewrite after_after.
  - exists (Raise (ValueError "Данные для data_weather отсутствуют.")).
    split; [done|]. rewrite fetch_loop_exhausted by lia.
    by rewrite Nat.add_0_r, app_nil_r.
Qed.

(** ** The fetcher *)

(** The part of C4 that the code keeps.  When the k-th attempt (k ≤ 5)
    succeeds and every attempt before it fails inside the guarded block,
    [fetch_api] issues exactly k requests and returns the payload of the
    k-th, whatever that payload is: nothing inspects its shape. *)
Theorem fetch_api_first_success client city_coord param_current w k data :
  1 ≤ k ≤ 5 →
  (∀ i, i < k - 1 → is_Some (attempt_failure (client (requests w + i)))) →
  attempt_payload (client (requests w + (k - 1))) = Some data →
  let params := request_params city_coord param_current in
  let w' := after w k (failed_rounds params client (requests w) (k - 1)
                         ++ [EvGet URL_API_OPEN_METEO params]) in
  fetch_api client city_coord param_current w = (Return data, w')
  ∧ requests w' = requests w + k
  ∧ gets (trace w') = gets (trace w) + k.
Proof.
  intros Hk Hfail Hok params w'. split; [|split].
  - unfold fetch_api. fold (request_params city_coord param_current). fold params.
    replace 6 with ((k - 1) + S (6 - k)) by lia.
    rewrite fetch_loop_failures by (done || lia).
    rewrite (fetch_loop_success _ _ _ _ _ data).
    + rewrite after_after. unfold w'. do 2 f_equal. lia.
    + lia.
    + simpl. done.
  - done.
  - unfold w'. simpl. rewrite !gets_app, gets_failed_rounds.
    change (gets [EvGet URL_API_OPEN_METEO params]) with 1. lia.
Qed.

Lemma fetch_api_first_success_witness :
  let params := request_params moscow_coord PARAM_CURRENT_DEFAULT in
  let w' := after world0 3 (failed_rounds params third_time_lucky 0 2
                              ++ [EvGet URL_API_OPEN_METEO params]) in
  fetch_api third_time_lucky moscow_coord PARAM_CURRENT_DEFAULT world0
  = (Return sample_payload, w')
  ∧ requests w' = 3
  ∧ gets (trace w') = 3.
Proof.
  apply (fetch_api_first_success third_time_lucky moscow_coord
           PARAM_CURRENT_DEFAULT world0 3 sample_payload).
  - lia.
  - intros [|[|i]] Hi; simpl; [by eexists | by eexists | lia].
  - reflexivity.
Defined.

(** C3, as the code has it.  In every run of the retry loop a delay of 3
    follows every failed attempt, the 5th included, and nothing follows the
    attempt that ends the loop; when all 5 attempts fail, 5 delays have
    occurred when the terminal failure is raised. *)
Theorem fetch_api_delay_after_every_failure client city_coord param_current w :
  let params := request_params city_coord param_current in
  let k := leading_failures client (requests w) 5 in
  let run := fetch_api client city_coord param_current w in
  trace run.2
  = trace w ++ failed_rounds params client (requests w) k
      ++ (if bool_decide (k < 5) then [EvGet URL_API_OPEN_METEO params] else [])
  ∧ sleeps (trace run.2) = sleeps (trace w) + k
  ∧ (if bool_decide (k < 5) then run.1 ≠ Unfinished else run.1 = Raise exhausted).
Proof.
  intros params k run.
  assert (Hk : k ≤ 5) by apply leading_failures_le.
  destruct (fetch_api_run client city_coord param_current w k) as (res & Hres & Hrun).
  - done.
  - intros i Hi. by apply (leading_failures_fail client 5).
  - intros Hlt. by apply leading_failures_stop.
  - fold params in Hrun. unfold run. rewrite Hrun. simpl.
    split; [done|]. split.
    + rewrite !sleeps_app, sleeps_failed_rounds.
      case_bool_decide; unfold sleeps; simpl; lia.
    + case_bool_decide as Hlt; [done|].
      unfold fetch_api in Hrun. fold (request_params city_coord param_current) in Hrun.
      fold params in Hrun.
      replace 6 with (k + 1) in Hrun by lia.
      rewrite fetch_loop_failures in Hrun.
      * rewrite fetch_loop_exhausted in Hrun by lia. by simplify_eq.
      * lia.
      * intros i Hi. apply (leading_failures_fail client 5). fold k. lia.
Qed.

(** C3, counterexample.  Against a provider that always answers 503 the
    fifth failure is followed by a delay too: 5 delays, not 4, and the last
    thing that happens before [ValueError] is raised is a sleep of 3. *)
Lemma five_failures_five_delays :
  let run := fetch_api always_503 moscow_coord PARAM_CURRENT_DEFAULT world0 in
  run.1 = Raise exhausted
  ∧ gets (trace run.2) = 5
  ∧ sleeps (trace run.2) = 5
  ∧ sleeps (trace run.2) ≠ 4
  ∧ last (trace run.2) = Some (EvSleep 3).
Proof. vm_compute. repeat split; congruence. Qed.

(** C1, where the code departs from it.  [client.get] is called before the
    [try], so an exception that the request itself raises, a transport
    failure such as [httpx.ConnectError] included, leaves [fetch_api] on the
    spot: one request, no diagnostic line, no delay, no further attempt,
    however much of the budget is left. *)
Theorem get_failure_escapes_retry_loop client city_coord param_current w e :
  client (requests w) = GetRaises e →
  let run := fetch_api client city_coord param_current w in
  run = (Raise e,
         after w 1 [EvGet URL_API_OPEN_METEO
                      (request_params city_coord param_current)])
  ∧ gets (trace run.2) = gets (trace w) + 1
  ∧ prints (trace run.2) = prints (trace w)
  ∧ sleeps (trace run.2) = sleeps (trace w).
Proof.
  intros Hget run. unfold run, fetch_api.
  fold (request_params city_coord param_current).
  rewrite (fetch_loop_get_raises _ _ _ _ _ e) by (done || lia).
  unfold after. cbn [fst snd requests trace].
  rewrite gets_app, prints_app, sleeps_app.
  unfold gets, prints, sleeps. simpl. repeat split; lia.
Qed.

(** The host cannot be reached: the first of the 5 attempts is the only
    one. *)
Lemma get_failure_escapes_retry_loop_witness :
  let run := fetch_api unreachable_host moscow_coord PARAM_CURRENT_DEFAULT world0 in
  run = (Raise (HTTPError "All connection attempts failed"),
         after world0 1 [EvGet URL_API_OPEN_METEO
                           (request_params moscow_coord PARAM_CURRENT_DEFAULT)])
  ∧ gets (trace run.2) = 1
  ∧ prints (trace run.2) = 0
  ∧ sleeps (trace run.2) = 0.
Proof.
  apply (get_failure_escapes_retry_loop unreachable_host moscow_coord
           PARAM_CURRENT_DEFAULT world0 (HTTPError "All connection attempts failed")).
  reflexivity.
Defined.

Lemma sends_keys_failed_rounds city_coord param_current client k : ∀ from,
  Forall (sends_keys city_coord param_current)
    (failed_rounds (request_params city_coord param_current) client from k).
Proof.
  induction k as [|k IH]; intros from; [constructor|].
  rewrite failed_rounds_S. apply Forall_app. split; [|apply IH].
  repeat constructor.
Qed.

(** Duplicate keys go out as they are. *)
Example current_keeps_duplicates :
  current (request_params moscow_coord
             [("pressure_msl", "давление"); ("temperature_2m", "температура");
              ("pressure_msl", "давление")])
  = "pressure_msl,temperature_2m,pressure_msl".
Proof. reflexivity. Qed.

Lemma split_on_free (s : string) :
  has_char comma s = false → split_on comma s = [s].
Proof.
  induction s as [|c s IH]; simpl; [done|].
  intros [Hc Hs]%orb_false_iff. rewrite Hc, IH by done. done.
Qed.

Lemma split_on_app (s t : string) :
  has_char comma s = false →
  split_on comma (s +:+ "," +:+ t) = s :: split_on comma t.
Proof.
  induction s as [|c s IH]; simpl; [done|].
  intros [Hc Hs]%orb_false_iff. rewrite Hc, IH by done. done.
Qed.

(** X11. Splitting the [current] parameter at the commas gives back the
    list of keys, in order and with its repetitions, as long as there is at
    least one key and no key contains a comma. *)
Lemma split_join_keys (keys : list string) :
  keys ≠ [] →
  Forall (λ key, has_char comma key = false) keys →
  split_on comma (Text.join "," keys) = keys.
Proof.
  unfold Text.join.
  induction keys as [|key keys IH]; [done|].
  intros _ Hfree. apply Forall_cons in Hfree as [Hkey Hkeys].
  destruct keys as [|key' keys].
  - simpl. by apply split_on_free.
  - change (String.concat "," (key :: key' :: keys))
      with (key +:+ "," +:+ String.concat "," (key' :: keys)).
    rewrite split_on_app by done. f_equal. by apply IH.
Qed.

Lemma join_comma_joined (keys : list string) :
  Text.join "," keys = comma_joined keys.
Proof.
  unfold Text.join. induction keys as [|key keys IH]; [done|].
  destruct keys as [|key' keys]; [done|].
  change (String.concat "," (key :: key' :: keys))
    with (key +:+ "," +:+ String.concat "," (key' :: keys)).
  by rewrite IH.
Qed.

Lemma split_on_comma_joined (keys : list string) :
  keys ≠ [] →
  Forall (λ key, has_char comma key = false) keys →
  split_on comma (comma_joined keys) = keys.
Proof.
  induction keys as [|key keys IH]; [done|].
  intros _ Hfree. apply Forall_cons in Hfree as [Hkey Hkeys].
  destruct keys as [|key' keys].
  - simpl. by apply split_on_free.
  - change (comma_joined (key :: key' :: keys))
      with (key +:+ "," +:+ comma_joined (key' :: keys)).
    rewrite split_on_app by done. f_equal. by apply IH.
Qed.

(** C6. Every request that [fetch_api] sends, and it sends at least one,
    carries as [current] the provider keys of the metric set in their
    order with a comma between neighbours, none dropped and none moved:
    when no key contains a comma, cutting the parameter at its commas
    gives back the list of keys as it is, repetitions included. *)
Theorem fetch_api_current_param client city_coord param_current w :
  let keys := map fst param_current in
  let run := fetch_api client city_coord param_current w in
  ∃ new,
    trace run.2 = trace w ++ new
    ∧ 1 ≤ gets new
    ∧ Forall (λ ev, ∀ url params, ev = EvGet url params →
                current params = comma_joined keys
                ∧ (keys ≠ [] →
                   Forall (λ key, has_char comma key = false) keys →
                   split_on comma (current params) = keys)) new.
Proof.
  intros keys run.
  pose (k := leading_failures client (requests w) 5).
  destruct (fetch_api_run client city_coord param_current w k) as (res & _ & Hrun).
  - apply leading_failures_le.
  - intros i Hi. by apply (leading_failures_fail client 5).
  - intros Hlt. by apply leading_failures_stop.
  - unfold run. rewrite Hrun. simpl. eexists. split; [done|].
    split.
    + rewrite gets_app, gets_failed_rounds.
      case_bool_decide; unfold gets; simpl; lia.
    + assert (Hsent : Forall (sends_keys city_coord param_current)
                (failed_rounds (request_params city_coord param_current) client
                   (requests w) k
                 ++ (if bool_decide (k < 5)
                     then [EvGet URL_API_OPEN_METEO
                             (request_params city_coord param_current)]
                     else []))).
      { apply Forall_app. split; [apply sends_keys_failed_rounds|].
        case_bool_decide; repeat constructor. }
      eapply Forall_impl; [exact Hsent|].
      intros ev Hev url params ->. simpl in Hev.
      destruct Hev as (_ & _ & _ & Hcurrent).
      rewrite Hcurrent, join_comma_joined. fold keys.
      split; [done|]. apply split_on_comma_joined.
Qed.

Lemma fetch_api_current_param_witness :
  let keys := ["pressure_msl"; "temperature_2m"; "pressure_msl"] in
  let run := fetch_api third_time_lucky moscow_coord pressure_twice world0 in
  ∃ new,
    trace run.2 = [] ++ new
    ∧ 1 ≤ gets new
    ∧ Forall (λ ev, ∀ url params, ev = EvGet url params →
                current params = "pressure_msl,temperature_2m,pressure_msl"
                ∧ (keys ≠ [] →
                   Forall (λ key, has_char comma key = false) keys →
                   split_on comma (current params) = keys)) new.
Proof.
  apply (fetch_api_current_param third_time_lucky moscow_coord pressure_twice
           world0).
Defined.

(** ** The presenter *)

(** The guard of [print_weather]: a section that [get] reports as [None],
    because the key is missing or bound to [None], aborts the call before
    anything is printed. *)
Lemma print_weather_malformed city_name entries param_current w :
  is_None (default PyNone (entries !! "current")) = true
  ∨ is_None (default PyNone (entries !! "current_units")) = true →
  print_weather city_name (PyDict entries) param_current w = (Raise malformed, w).
Proof.
  unfold print_weather. run.
  destruct (entries !! "current") as [[]|]; simpl;
    destruct (entries !! "current_units") as [[]|]; simpl;
    intros [?|?]; done.
Qed.

(** C7. A payload without the [current] section or without the
    [current_units] section makes the presenter fail with the
    malformed-payload [KeyError], and nothing at all is printed. *)
Theorem print_weather_missing_section city_name entries param_current w :
  entries !! "current" = None ∨ entries !! "current_units" = None →
  print_weather city_name (PyDict entries) param_current w = (Raise malformed, w).
Proof.
  intros [H|H]; apply print_weather_malformed; rewrite H; simpl; auto.
Qed.

Lemma print_weather_missing_section_witness :
  print_weather "Moscow"
    (PyDict {[ "current_units" := PyDict {[ "temperature_2m" := PyStr "°C" ]} ]})
    PARAM_CURRENT_DEFAULT world0
  = (Raise malformed, world0).
Proof.
  apply (print_weather_missing_section "Moscow"
           {[ "current_units" := PyDict {[ "temperature_2m" := PyStr "°C" ]} ]}
           PARAM_CURRENT_DEFAULT world0).
  left. reflexivity.
Defined.

(** C10. A section key that is present but bound to [None] is treated as
    an absent one: same failure, nothing printed, and the call cannot be
    told from the call on the payload with the key removed. *)
Theorem print_weather_null_section city_name entries param_current w key :
  key = "current" ∨ key = "current_units" →
  entries !! key = Some PyNone →
  print_weather city_name (PyDict entries) param_current w
  = print_weather city_name (PyDict (delete key entries)) param_current w
  ∧ print_weather city_name (PyDict entries) param_current w = (Raise malformed, w).
Proof.
  intros Hkey Hnull.
  rewrite (print_weather_malformed _ entries), (print_weather_malformed _ (delete key entries)).
  - done.
  - destruct Hkey as [->| ->]; rewrite lookup_delete_eq; simpl; auto.
  - destruct Hkey as [->| ->]; rewrite Hnull; simpl; auto.
Qed.

Lemma print_weather_null_section_witness :
  let entries : gmap string Any :=
    {[ "current" := PyNone;
       "current_units" := PyDict {[ "temperature_2m" := PyStr "°C" ]} ]} in
  print_weather "Moscow" (PyDict entries) PARAM_CURRENT_DEFAULT world0
  = print_weather "Moscow" (PyDict (delete "current" entries))
      PARAM_CURRENT_DEFAULT world0
  ∧ print_weather "Moscow" (PyDict entries) PARAM_CURRENT_DEFAULT world0
    = (Raise malformed, world0).
Proof.
  intros entries.
  apply (print_weather_null_section "Moscow" entries PARAM_CURRENT_DEFAULT
           world0 "current").
  - left. reflexivity.
  - reflexivity.
Defined.

Lemma for_each_cons {A} (x : A) (xs : list A) (body : A → M unit) w w' :
  body x w = (Return tt, w') →
  for_each (x :: xs) body w = for_each xs body w'.
Proof. intros Hx. simpl. unfold mbind, M_bind. by rewrite Hx. Qed.

(** C8. On a payload with both sections the presenter prints the header
    and then exactly one line per metric, in the order of the metric set:
    value and unit when both are there, the diagnostic for that key
    otherwise, and it goes on to the next metric either way. *)
Theorem print_weather_lines city_name entries data data_units param_current w :
  entries !! "current" = Some (PyDict data) →
  entries !! "current_units" = Some (PyDict data_units) →
  print_weather city_name (PyDict entries) param_current w
  = (Return tt,
     after w 0 (header_line city_name
                  :: map (metric_line data data_units) param_current)).
Proof.
  intros Hdata Hunits. unfold print_weather. run. rewrite Hdata, Hunits. simpl.
  unfold after. rewrite Nat.add_0_r.
  change (header_line city_name :: ?l) with ([header_line city_name] ++ l).
  rewrite app_assoc. unfold header_line.
  generalize (trace w ++ [EvPrint [Lit (Text.nl +:+ "Погода в городе " +:+ city_name)]]).
  generalize (requests w).
  induction param_current as [|[param_key param_title] rest IH]; intros n t.
  - simpl. by rewrite app_nil_r.
  - rewrite (for_each_cons _ _ _ _
      {| requests := n;
         trace := t ++ [metric_line data data_units (param_key, param_title)] |}).
    + rewrite IH. simpl. by rewrite <- app_assoc.
    + simpl. destruct (data !! param_key), (data_units !! param_key); done.
Qed.

Lemma print_weather_lines_witness :
  let entries : gmap string Any :=
    {[ "current" := PyDict {[ "temperature_2m" := PyFloat "5.2";
                              "relative_humidity_2m" := PyInt 80;
                              "pressure_msl" := PyInt 1013 ]};
       "current_units" := PyDict {[ "temperature_2m" := PyStr "°C";
                                    "pressure_msl" := PyStr "hPa" ]} ]} in
  print_weather "Moscow" (PyDict entries) PARAM_CURRENT_DEFAULT world0
  = (Return tt,
     {| requests := 0;
        trace :=
          [ EvPrint [Lit (Text.nl +:+ "Погода в городе Moscow")];
            EvPrint [Lit "Температура: "; Val (PyFloat "5.2"); Lit " ";
                     Val (PyStr "°C")];
            EvPrint [Lit ("Ошибка: данные " +:+ Text.dquote
                          +:+ "relative_humidity_2m" +:+ Text.dquote
                          +:+ " отсутствуют или неполные.")];
            EvPrint [Lit "Давление: "; Val (PyInt 1013); Lit " ";
                     Val (PyStr "hPa")] ] |}).
Proof.
  intros entries.
  exact (print_weather_lines "Moscow" entries
           {[ "temperature_2m" := PyFloat "5.2";
              "relative_humidity_2m" := PyInt 80;
              "pressure_msl" := PyInt 1013 ]}
           {[ "temperature_2m" := PyStr "°C"; "pressure_msl" := PyStr "hPa" ]}
           PARAM_CURRENT_DEFAULT world0 eq_refl eq_refl).
Defined.

(** The end-to-end scenario of the default metric set. *)
Example main_first_cycle :
  (main 1 (λ _, response_ok sample_payload) world0).2
  = {| requests := 1;
       trace :=
         [ EvGet URL_API_OPEN_METEO
             {| latitude := moscow_coord.1; longitude := moscow_coord.2;
                current := "temperature_2m,relative_humidity_2m,pressure_msl" |};
           EvPrint [Lit (Text.nl +:+ "Погода в городе Moscow")];
           EvPrint [Lit "Температура: "; Val (PyFloat "5.2"); Lit " ";
                    Val (PyStr "°C")];
           EvPrint [Lit "Влажность: "; Val (PyInt 80); Lit " "; Val (PyStr "%")];
           EvPrint [Lit "Давление: "; Val (PyInt 1013); Lit " ";
                    Val (PyStr "hPa")];
           EvSleep 5 ] |}.
Proof. vm_compute. reflexivity. Qed.

(** ** The poller *)

Lemma weather_unknown_city cycles client city interval_sec param_current w :
  CITY_COORD !! Text.lower city = None →
  weather cycles client city interval_sec param_current w
  = (Raise (KeyError ("Отсутствуют данные по данному городу: "
                      +:+ Text.lower city)), w).
Proof.
  intros Habsent. unfold weather. by rewrite bool_decide_eq_true_2.
Qed.

(** C2, as the code has it.  For a city whose lower-cased name is not in
    the table, [weather] fails with a [KeyError] whose message carries the
    lower-cased name; no coordinate is produced and the world is
    untouched. *)
Theorem weather_unknown_city_carries_lowercased cycles client city interval_sec
    param_current w :
  CITY_COORD !! Text.lower city = None →
  weather cycles client city interval_sec param_current w
  = (Raise (KeyError ("Отсутствуют данные по данному городу: "
                      +:+ Text.lower city)), w).
Proof. apply weather_unknown_city. Qed.

Lemma weather_unknown_city_carries_lowercased_witness :
  weather 3 always_503 "ATLANTIS" 5 None world0
  = (Raise (KeyError "Отсутствуют данные по данному городу: atlantis"), world0).
Proof.
  apply (weather_unknown_city_carries_lowercased 3 always_503 "ATLANTIS" 5 None
           world0).
  reflexivity.
Defined.

(** C2, counterexample.  Called with "Atlantis", the poller reports
    "atlantis": the text the caller supplied is not what the error
    carries. *)
Lemma weather_error_drops_original_case :
  let run := weather 1 always_503 "Atlantis" 5 None world0 in
  CITY_COORD !! Text.lower "Atlantis" = None
  ∧ run.1 = Raise (KeyError "Отсутствуют данные по данному городу: atlantis")
  ∧ run.1 ≠ Raise (KeyError ("Отсутствуют данные по данному городу: "
                             +:+ "Atlantis")).
Proof. vm_compute. repeat split; congruence. Qed.

(** C9. For a city that is not in the table the poller fails at once with
    the unknown-city [KeyError]: no request is issued, whatever the number
    of cycles it is given to run. *)
Theorem weather_unknown_city_no_request cycles client city interval_sec
    param_current w :
  CITY_COORD !! Text.lower city = None →
  let run := weather cycles client city interval_sec param_current w in
  (∃ msg, run.1 = Raise (KeyError msg))
  ∧ requests run.2 = requests w
  ∧ trace run.2 = trace w
  ∧ gets (trace run.2) = gets (trace w).
Proof.
  intros Habsent run. unfold run. rewrite weather_unknown_city by done.
  simpl. eauto.
Qed.

Lemma weather_unknown_city_no_request_witness :
  let run := weather 7 third_time_lucky "atlantis" 5 None world0 in
  (∃ msg, run.1 = Raise (KeyError msg))
  ∧ requests run.2 = 0
  ∧ trace run.2 = []
  ∧ gets (trace run.2) = 0.
Proof.
  apply (weather_unknown_city_no_request 7 third_time_lucky "atlantis" 5 None
           world0).
  reflexivity.
Defined.

(** Neither the fetcher nor the presenter can be cut short: the fuel of
    the retry loop always suffices, and the presenter has no loop but the
    one over the metric set. *)
Lemma fetch_api_finishes client city_coord param_current w :
  (fetch_api client city_coord param_current w).1 ≠ Unfinished.
Proof.
  destruct (fetch_api_run client city_coord param_current w
              (leading_failures client (requests w) 5)) as (res & Hres & ->).
  - apply leading_failures_le.
  - intros i Hi. by apply (leading_failures_fail client 5).
  - intros Hlt. by apply leading_failures_stop.
  - done.
Qed.

Lemma for_each_finishes {A} (body : A → M unit) (xs : list A) :
  (∀ x w, (body x w).1 ≠ Unfinished) →
  ∀ w, (for_each xs body w).1 ≠ Unfinished.
Proof.
  intros Hbody. induction xs as [|x xs IH]; intros w; simpl; [done|].
  unfold mbind, M_bind. specialize (Hbody x w).
  destruct (body x w) as [[[]|e|] w']; simpl in *; [apply IH|done|done].
Qed.

Lemma print_weather_finishes city_name data_weather param_current w :
  (print_weather city_name data_weather param_current w).1 ≠ Unfinished.
Proof.
  unfold print_weather.
  destruct data_weather as [| | | | | |entries]; try done.
  run.
  destruct (entries !! "current") as [section|]; simpl; [|done].
  destruct (is_None section) eqn:Hsection; simpl; [done|].
  destruct (entries !! "current_units") as [section_units|]; simpl; [|done].
  destruct (is_None section_units) eqn:Hunits; simpl; [done|].
  apply for_each_finishes. intros [param_key param_title] w0.
  destruct section as [| | | | | |data]; try done;
    destruct section_units as [| | | | | |data_units]; simpl;
    destruct (data !! param_key); simpl; try done;
    destruct (data_units !! param_key); done.
Qed.

(** Cycles that have completed stay completed when the poller is given
    more of them to run. *)
Lemma weather_loop_resume client city interval_sec param_current n m : ∀ w w',
  weather_loop n client city interval_sec param_current w = (Unfinished, w') →
  weather_loop (n + m) client city interval_sec param_current w
  = weather_loop m client city interval_sec param_current w'.
Proof.
  induction n as [|n IH]; intros w w' Hn.
  - simpl in *. unfold unfinished in Hn. by simplify_eq.
  - simpl in *. unfold mbind, M_bind in *.
    destruct (CITY_COORD !! city) as [c|]; simpl in *; [|done].
    pose proof (fetch_api_finishes client c param_current w) as Hfetch.
    destruct (fetch_api client c param_current w) as [[data|e|] w1];
      simpl in *; [|done|done].
    pose proof (print_weather_finishes (Text.capitalize city) data param_current w1)
      as Hprint.
    destruct (print_weather (Text.capitalize city) data param_current w1)
      as [[[]|e|] w2]; simpl in *; [|done|done].
    unfold sleep in *.
    destruct (float_overflows interval_sec); simpl in *; [done|].
    by apply IH.
Qed.

Lemma weather_loop_fetch_raises client city interval_sec param_current n w c e w' :
  CITY_COORD !! city = Some c →
  fetch_api client c param_current w = (Raise e, w') →
  weather_loop (S n) client city interval_sec param_current w = (Raise e, w').
Proof.
  intros Hc Hfetch. simpl. unfold mbind, M_bind. rewrite Hc. simpl.
  by rewrite Hfetch.
Qed.

Lemma fetch_api_exhausted client city_coord param_current w :
  (∀ i, i < 5 → is_Some (attempt_failure (client (requests w + i)))) →
  fetch_api client city_coord param_current w
  = (Raise exhausted,
     after w 5 (failed_rounds (request_params city_coord param_current)
                  client (requests w) 5)).
Proof.
  intros Hfail. unfold fetch_api.
  fold (request_params city_coord param_current).
  change 6 with (5 + 1). rewrite fetch_loop_failures by (done || lia).
  by rewrite fetch_loop_exhausted by lia.
Qed.

(** The part of C5 that the code keeps.  When 5 attempts in a row fail
    inside the guarded block, [fetch_api] raises the exhaustion
    [ValueError] after exactly 5 requests; the poller does not catch it, so
    in whichever cycle this happens the exception leaves [weather], and
    with it [main], and no sixth request is made. *)
Theorem fetch_exhausted_is_fatal client w :
  (∀ i, i < 5 → is_Some (attempt_failure (client (requests w + i)))) →
  (∀ city_coord param_current,
     let run := fetch_api client city_coord param_current w in
     run.1 = Raise exhausted
     ∧ requests run.2 = requests w + 5
     ∧ gets (trace run.2) = gets (trace w) + 5)
  ∧ (∀ n m city interval_sec param_current w0,
       weather n client city interval_sec param_current w0 = (Unfinished, w) →
       let run := weather (n + S m) client city interval_sec param_current w0 in
       run.1 = Raise exhausted ∧ requests run.2 = requests w + 5)
  ∧ (∀ n m w0,
       main n client w0 = (Unfinished, w) →
       let run := main (n + S m) client w0 in
       run.1 = Raise exhausted ∧ requests run.2 = requests w + 5).
Proof.
  intros Hfail.
  assert (Hweather : ∀ n m city interval_sec param_current w0,
    weather n client city interval_sec param_current w0 = (Unfinished, w) →
    let run := weather (n + S m) client city interval_sec param_current w0 in
    run.1 = Raise exhausted ∧ requests run.2 = requests w + 5).
  { intros n m city interval_sec param_current w0 Hn run. unfold run, weather in *.
    case_bool_decide as Hcity; [done|].
    destruct (CITY_COORD !! Text.lower city) as [c|] eqn:Hc; [|done].
    rewrite (weather_loop_resume _ _ _ _ _ _ _ _ Hn).
    rewrite (weather_loop_fetch_raises _ _ _ _ _ _ c exhausted
               (after w 5 (failed_rounds
                  (request_params c (default PARAM_CURRENT_DEFAULT param_current))
                  client (requests w) 5))).
    - done.
    - done.
    - by apply fetch_api_exhausted. }
  split; [|split].
  - intros city_coord param_current run. unfold run.
    rewrite fetch_api_exhausted by done. unfold after.
    cbn [fst snd requests trace]. by rewrite gets_app, gets_failed_rounds.
  - exact Hweather.
  - intros n m w0. apply Hweather.
Qed.

(** The process started by [main] against a provider that always answers
    503 ends in its first cycle, after 5 requests. *)
Example main_dies_on_outage :
  let run := main 1 always_503 world0 in
  main 0 always_503 world0 = (Unfinished, world0)
  ∧ run.1 = Raise exhausted
  ∧ requests run.2 = 5.
Proof. vm_compute. done. Qed.

(** Against a provider that answers once and then fails, the first cycle
    completes and the process ends in the second, 5 requests later. *)
Example main_dies_in_second_cycle :
  let first := main 1 outage_after_first world0 in
  let run := main 2 outage_after_first world0 in
  first.1 = Unfinished
  ∧ requests first.2 = 1
  ∧ run.1 = Raise exhausted
  ∧ requests run.2 = 6
  ∧ main 9 outage_after_first world0 = run.
Proof. vm_compute. done. Qed.

(** ** Further properties of the fetcher *)

Lemma attempt_trichotomy (a : Attempt) :
  attempt_failure a = None →
  (∃ data, attempt_payload a = Some data) ∨ (∃ e, attempt_escape a = Some e).
Proof.
  unfold attempt_failure, attempt_payload, attempt_escape.
  destruct a as [e|r]; [by eauto|].
  destruct (guarded r) as [[]|data]; by eauto.
Qed.

Lemma fetch_loop_escape fuel client params repeat_fetch w e :
  (repeat_fetch < 5)%Z →
  attempt_escape (client (requests w)) = Some e →
  fetch_loop (S fuel) client params repeat_fetch w
  = (Raise e, after w 1 [EvGet URL_API_OPEN_METEO params]).
Proof.
  intros Hlt Hesc. simpl. rewrite bool_decide_eq_true_2 by done.
  unfold after, attempt_escape, guarded in *. run.
  destruct (client (requests w)) as [e'|r]; rewrite Nat.add_1_r.
  - by simplify_eq.
  - destruct (status_error r) as [e'|]; [|destruct (body r) as [e'|data]];
      try done; destruct e'; by simplify_eq.
Qed.

(** The run of [fetch_api] that returns at attempt number [k] (from 0). *)
Lemma fetch_api_success_at client city_coord param_current w k data :
  k < 5 →
  (∀ i, i < k → is_Some (attempt_failure (client (requests w + i)))) →
  attempt_payload (client (requests w + k)) = Some data →
  let params := request_params city_coord param_current in
  fetch_api client city_coord param_current w
  = (Return data,
     after w (S k) (failed_rounds params client (requests w) k
                      ++ [EvGet URL_API_OPEN_METEO params])).
Proof.
  intros Hk Hfail Hok params. unfold fetch_api.
  fold (request_params city_coord param_current). fold params.
  replace 6 with (k + S (5 - k)) by lia.
  rewrite fetch_loop_failures by (done || lia).
  rewrite (fetch_loop_success _ _ _ _ _ data) by (done || lia).
  rewrite after_after. do 2 f_equal. lia.
Qed.

(** The run of [fetch_api] that an exception leaves at attempt number [k]. *)
Lemma fetch_api_escape_at client city_coord param_current w k e :
  k < 5 →
  (∀ i, i < k → is_Some (attempt_failure (client (requests w + i)))) →
  attempt_escape (client (requests w + k)) = Some e →
  let params := request_params city_coord param_current in
  fetch_api client city_coord param_current w
  = (Raise e,
     after w (S k) (failed_rounds params client (requests w) k
                      ++ [EvGet URL_API_OPEN_METEO params])).
Proof.
  intros Hk Hfail Hesc params. unfold fetch_api.
  fold (request_params city_coord param_current). fold params.
  replace 6 with (k + S (5 - k)) by lia.
  rewrite fetch_loop_failures by (done || lia).
  rewrite (fetch_loop_escape _ _ _ _ _ e) by (done || lia).
  rewrite after_after. do 2 f_equal. lia.
Qed.

(** C4, where the code departs from it.  When one of the attempts before
    the successful one fails because [client.get] itself raises (a timeout,
    a refused connection), that exception leaves [fetch_api] at once: the
    k-th attempt is never made and its payload is never returned. *)
Theorem get_failure_preempts_success client city_coord param_current w j k e data :
  j < k - 1 →
  k ≤ 5 →
  (∀ i, i < j → is_Some (attempt_failure (client (requests w + i)))) →
  client (requests w + j) = GetRaises e →
  attempt_payload (client (requests w + (k - 1))) = Some data →
  let params := request_params city_coord param_current in
  let run := fetch_api client city_coord param_current w in
  run = (Raise e,
         after w (S j) (failed_rounds params client (requests w) j
                          ++ [EvGet URL_API_OPEN_METEO params]))
  ∧ run.1 ≠ Return data
  ∧ gets (trace run.2) = gets (trace w) + S j
  ∧ requests run.2 < requests w + k.
Proof.
  intros Hj Hk Hfail Hget Hok params run.
  assert (Hrun : run = (Raise e,
            after w (S j) (failed_rounds params client (requests w) j
                             ++ [EvGet URL_API_OPEN_METEO params]))).
  { unfold run. apply fetch_api_escape_at; [lia|done|].
    unfold attempt_escape. by rewrite Hget. }
  rewrite Hrun. split; [done|]. split; [done|].
  unfold after. cbn [fst snd requests trace].
  rewrite !gets_app, gets_failed_rounds. unfold gets at 2. simpl. lia.
Qed.

Lemma get_failure_preempts_success_witness :
  let params := request_params moscow_coord PARAM_CURRENT_DEFAULT in
  let run := fetch_api timeout_then_ok moscow_coord PARAM_CURRENT_DEFAULT world0 in
  run = (Raise (HTTPError "The read operation timed out"),
         after world0 1 (failed_rounds params timeout_then_ok 0 0
                           ++ [EvGet URL_API_OPEN_METEO params]))
  ∧ run.1 ≠ Return sample_payload
  ∧ gets (trace run.2) = 1
  ∧ requests run.2 < 2.
Proof.
  apply (get_failure_preempts_success timeout_then_ok moscow_coord
           PARAM_CURRENT_DEFAULT world0 0 2
           (HTTPError "The read operation timed out") sample_payload).
  - lia.
  - lia.
  - intros i Hi. lia.
  - reflexivity.
  - reflexivity.
Defined.

(** C5, where the code departs from it.  When none of the next 5 attempts
    succeeds and one of them fails because [client.get] itself raises, the
    budget is never used up: the exception of that attempt leaves
    [fetch_api] there, in place of the exhaustion [ValueError], and the
    attempts after it are never made. *)
Theorem get_failure_preempts_exhaustion client city_coord param_current w j e :
  (∀ i, i < 5 → attempt_payload (client (requests w + i)) = None) →
  j < 5 →
  (∀ i, i < j → is_Some (attempt_failure (client (requests w + i)))) →
  client (requests w + j) = GetRaises e →
  e ≠ exhausted →
  let run := fetch_api client city_coord param_current w in
  run.1 = Raise e
  ∧ run.1 ≠ Raise exhausted
  ∧ requests run.2 = requests w + S j
  ∧ gets (trace run.2) = gets (trace w) + S j
  ∧ sleeps (trace run.2) = sleeps (trace w) + j.
Proof.
  intros _ Hj Hfail Hget Hne run.
  assert (Hrun : run = (Raise e,
            after w (S j)
              (failed_rounds (request_params city_coord param_current) client
                 (requests w) j
               ++ [EvGet URL_API_OPEN_METEO
                     (request_params city_coord param_current)]))).
  { unfold run. apply fetch_api_escape_at; [done|done|].
    unfold attempt_escape. by rewrite Hget. }
  rewrite Hrun. split; [done|]. split; [simpl; congruence|].
  unfold after. cbn [fst snd requests trace]. split; [done|].
  rewrite !gets_app, !sleeps_app, gets_failed_rounds, sleeps_failed_rounds.
  unfold gets at 2. unfold sleeps at 2. simpl. lia.
Qed.

Lemma get_failure_preempts_exhaustion_witness :
  let run := fetch_api unreachable_host moscow_coord PARAM_CURRENT_DEFAULT world0 in
  run.1 = Raise (HTTPError "All connection attempts failed")
  ∧ run.1 ≠ Raise exhausted
  ∧ requests run.2 = 1
  ∧ gets (trace run.2) = 1
  ∧ sleeps (trace run.2) = 0.
Proof.
  apply (get_failure_preempts_exhaustion unreachable_host moscow_coord
           PARAM_CURRENT_DEFAULT world0 0
           (HTTPError "All connection attempts failed")).
  - intros i Hi. reflexivity.
  - lia.
  - intros i Hi. lia.
  - reflexivity.
  - discriminate.
Defined.

Lemma poller_event_failed_rounds city_coord param_current interval_sec client k :
  ∀ from,
  Forall (poller_event city_coord param_current interval_sec)
    (failed_rounds (request_params city_coord param_current) client from k).
Proof.
  induction k as [|k IH]; intros from; [constructor|].
  rewrite failed_rounds_S. apply Forall_app. split; [|apply IH].
  repeat constructor.
Qed.

(** Every run of [fetch_api], as far as the world goes. *)
Lemma fetch_api_events client city_coord param_current w :
  ∃ res new,
    res ≠ Unfinished
    ∧ fetch_api client city_coord param_current w = (res, after w (gets new) new)
    ∧ 1 ≤ gets new ≤ 5
    ∧ prints new = sleeps new
    ∧ sleeps new ≤ gets new ≤ S (sleeps new)
    ∧ (∀ interval_sec,
         Forall (poller_event city_coord param_current interval_sec) new)
    ∧ ∃ rest,
        new = EvGet URL_API_OPEN_METEO (request_params city_coord param_current)
                :: rest.
Proof.
  pose (k := leading_failures client (requests w) 5).
  assert (Hk : k ≤ 5) by apply leading_failures_le.
  destruct (fetch_api_run client city_coord param_current w k)
    as (res & Hres & Hrun).
  - done.
  - intros i Hi. by apply (leading_failures_fail client 5).
  - intros Hlt. by apply leading_failures_stop.
  - set (new := failed_rounds _ _ _ _ ++ _) in Hrun.
    exists res, new. split; [done|].
    assert (Hgets : gets new = k + (if bool_decide (k < 5) then 1 else 0)).
    { unfold new. rewrite gets_app, gets_failed_rounds. by case_bool_decide. }
    assert (Hsleeps : sleeps new = k).
    { unfold new. rewrite sleeps_app, sleeps_failed_rounds.
      case_bool_decide; unfold sleeps; simpl; lia. }
    assert (Hprints : prints new = k).
    { unfold new. rewrite prints_app, prints_failed_rounds.
      case_bool_decide; unfold prints; simpl; lia. }
    rewrite Hgets, Hsleeps, Hprints. split; [exact Hrun|].
    repeat split; try (case_bool_decide; lia).
    + intros interval_sec. unfold new. apply Forall_app.
      split; [apply poller_event_failed_rounds|].
      case_bool_decide; repeat constructor.
    + unfold new. destruct k as [|k'].
      * rewrite bool_decide_eq_true_2 by lia. by eexists.
      * rewrite failed_rounds_S. by eexists.
Qed.

(** X1. Whatever the client does, one call of [fetch_api] sends at least
    one and at most 5 requests, prints one diagnostic line per delay and
    sleeps only between requests it has sent: a delay follows every request
    except, possibly, the last one.  It never runs out of fuel. *)
Theorem fetch_api_request_budget client city_coord param_current w :
  let run := fetch_api client city_coord param_current w in
  ∃ new,
    trace run.2 = trace w ++ new
    ∧ run.1 ≠ Unfinished
    ∧ 1 ≤ gets new ≤ 5
    ∧ requests run.2 = requests w + gets new
    ∧ prints new = sleeps new
    ∧ sleeps new ≤ gets new ≤ S (sleeps new)
    ∧ Forall (λ ev, ∀ seconds, ev = EvSleep seconds → seconds = 3%Z) new.
Proof.
  intros run.
  destruct (fetch_api_events client city_coord param_current w)
    as (res & new & Hres & Hrun & Hgets & Hprints & Hsleeps & Hevents & _).
  exists new. unfold run. rewrite Hrun. simpl.
  repeat split; try done; try lia.
  specialize (Hevents 3%Z). eapply Forall_impl; [exact Hevents|].
  intros ev Hev seconds ->. simpl in Hev. by destruct Hev.
Qed.

(** X2. A payload that [fetch_api] returns is the parsed body of one of the
    first 5 answers, the first one that came with a success status and a
    body that parses; every attempt before it failed and was retried. *)
Theorem fetch_api_returns_first_parsed_body client city_coord param_current
    w data w' :
  fetch_api client city_coord param_current w = (Return data, w') →
  ∃ k,
    k < 5
    ∧ (∀ i, i < k → is_Some (attempt_failure (client (requests w + i))))
    ∧ attempt_payload (client (requests w + k)) = Some data
    ∧ requests w' = requests w + S k
    ∧ gets (trace w') = gets (trace w) + S k.
Proof.
  intros Hrun.
  pose (k := leading_failures client (requests w) 5).
  assert (Hk : k ≤ 5) by apply leading_failures_le.
  assert (Hfail : ∀ i, i < k →
            is_Some (attempt_failure (client (requests w + i)))).
  { intros i Hi. by apply (leading_failures_fail client 5). }
  destruct (decide (k < 5)) as [Hlt|Hge].
  - pose proof (leading_failures_stop client 5 (requests w) Hlt) as Hstop.
    fold k in Hstop.
    destruct (attempt_trichotomy _ Hstop) as [[data' Hok]|[e Hesc]].
    + rewrite (fetch_api_success_at _ _ _ _ k data') in Hrun by done.
      simplify_eq. exists k. repeat split; try done.
      unfold after. cbn [trace]. rewrite !gets_app, gets_failed_rounds.
      unfold gets at 2. simpl. lia.
    + rewrite (fetch_api_escape_at _ _ _ _ k e) in Hrun by done. done.
  - rewrite fetch_api_exhausted in Hrun; [done|].
    intros i Hi. apply Hfail. lia.
Qed.

Lemma fetch_api_returns_first_parsed_body_witness :
  ∃ k,
    k < 5
    ∧ (∀ i, i < k → is_Some (attempt_failure (third_time_lucky (0 + i))))
    ∧ attempt_payload (third_time_lucky (0 + k)) = Some sample_payload
    ∧ requests (fetch_api third_time_lucky moscow_coord PARAM_CURRENT_DEFAULT
                  world0).2 = 0 + S k
    ∧ gets (trace (fetch_api third_time_lucky moscow_coord PARAM_CURRENT_DEFAULT
                     world0).2) = gets [] + S k.
Proof.
  apply (fetch_api_returns_first_parsed_body third_time_lucky moscow_coord
           PARAM_CURRENT_DEFAULT world0 sample_payload).
  reflexivity.
Defined.

(** X3. Only [HTTPError] and [JSONDecodeError] are retried.  An exception
    of any other class raised by [raise_for_status()] or by [json()], at
    whichever attempt of the budget, leaves [fetch_api] there and then: no
    diagnostic line for it, no delay, no further request. *)
Theorem fetch_api_other_exception_escapes client city_coord param_current
    w k r e :
  k < 5 →
  (∀ i, i < k → is_Some (attempt_failure (client (requests w + i)))) →
  client (requests w + k) = GetReturns r →
  guarded r = inl e →
  (∀ msg, e ≠ HTTPError msg) →
  (∀ msg, e ≠ JSONDecodeError msg) →
  let params := request_params city_coord param_current in
  let run := fetch_api client city_coord param_current w in
  run = (Raise e,
         after w (S k) (failed_rounds params client (requests w) k
                          ++ [EvGet URL_API_OPEN_METEO params]))
  ∧ gets (trace run.2) = gets (trace w) + S k
  ∧ prints (trace run.2) = prints (trace w) + k
  ∧ sleeps (trace run.2) = sleeps (trace w) + k.
Proof.
  intros Hk Hfail Hget Hguard Hhttp Hjson params run.
  assert (Hesc : attempt_escape (client (requests w + k)) = Some e).
  { unfold attempt_escape. rewrite Hget, Hguard.
    destruct e; try done; [by destruct (Hhttp msg)|by destruct (Hjson msg)]. }
  unfold run. rewrite (fetch_api_escape_at _ _ _ _ k e) by done.
  split; [done|]. unfold after. cbn [fst snd trace].
  rewrite !gets_app, !prints_app, !sleeps_app.
  rewrite gets_failed_rounds, prints_failed_rounds, sleeps_failed_rounds.
  unfold gets, prints, sleeps. simpl. lia.
Qed.

Lemma fetch_api_other_exception_escapes_witness :
  let params := request_params moscow_coord PARAM_CURRENT_DEFAULT in
  let run := fetch_api bad_then_binary moscow_coord PARAM_CURRENT_DEFAULT world0 in
  run = (Raise (OtherError "'utf-8' codec can't decode byte 0xff"),
         after world0 2 (failed_rounds params bad_then_binary 0 1
                           ++ [EvGet URL_API_OPEN_METEO params]))
  ∧ gets (trace run.2) = 2
  ∧ prints (trace run.2) = 1
  ∧ sleeps (trace run.2) = 1.
Proof.
  apply (fetch_api_other_exception_escapes bad_then_binary moscow_coord
           PARAM_CURRENT_DEFAULT world0 1
           {| status_error := None;
              body := inl (OtherError "'utf-8' codec can't decode byte 0xff") |}
           (OtherError "'utf-8' codec can't decode byte 0xff")).
  - lia.
  - intros [|i] Hi; [simpl; by eexists | lia].
  - reflexivity.
  - reflexivity.
  - intros msg. discriminate.
  - intros msg. discriminate.
Defined.

(** ** Further properties of the presenter *)

Lemma print_weather_rejects city_name data_weather param_current w e :
  presenter_rejects data_weather = Some e →
  print_weather city_name data_weather param_current w = (Raise e, w).
Proof.
  unfold presenter_rejects, print_weather.
  destruct data_weather as [| | | | | |entries];
    try (intros; simplify_eq; reflexivity).
  run.
  destruct (entries !! "current") as [section|]; simpl;
    [destruct (is_None section); simpl|];
    try (intros; simplify_eq; reflexivity).
  destruct (entries !! "current_units") as [section_units|]; simpl;
    [destruct (is_None section_units); simpl|];
    intros; simplify_eq; reflexivity.
Qed.

Lemma for_each_prints {A} (body : A → M unit) (xs : list A) :
  (∀ x w, ∃ res new,
     res ≠ Unfinished ∧ body x w = (res, after w 0 new)
     ∧ Forall (λ ev, is_print ev = true) new ∧ List.length new ≤ 1) →
  ∀ w, ∃ res new,
    res ≠ Unfinished ∧ for_each xs body w = (res, after w 0 new)
    ∧ Forall (λ ev, is_print ev = true) new
    ∧ List.length new ≤ List.length xs.
Proof.
  intros Hbody. induction xs as [|x xs IH]; intros w.
  - exists (Return tt), []. simpl. rewrite after_0_nil.
    repeat split; [done|constructor|lia].
  - destruct (Hbody x w) as (res & new & Hres & Hx & Hnew & Hlen).
    simpl. unfold mbind, M_bind. rewrite Hx.
    destruct res as [[]|e|]; [|by exists (Raise e), new; repeat split; try done; lia|done].
    destruct (IH (after w 0 new)) as (res' & new' & Hres' & Hxs & Hnew' & Hlen').
    exists res', (new ++ new'). rewrite Hxs, after_after. simpl.
    repeat split; [done|by apply Forall_app|rewrite length_app; lia].
Qed.

(** Every run of [print_weather], as far as the world goes. *)
Lemma print_weather_events city_name data_weather param_current w :
  ∃ res new,
    res ≠ Unfinished
    ∧ print_weather city_name data_weather param_current w = (res, after w 0 new)
    ∧ Forall (λ ev, is_print ev = true) new
    ∧ List.length new ≤ S (List.length param_current).
Proof.
  destruct (presenter_rejects data_weather) as [e|] eqn:Hguard.
  { exists (Raise e), []. rewrite (print_weather_rejects _ _ _ _ e) by done.
    rewrite after_0_nil. repeat split; [done|constructor|simpl; lia]. }
  unfold presenter_rejects in Hguard.
  destruct data_weather as [| | | | | |entries]; try done.
  unfold print_weather. run.
  destruct (entries !! "current") as [section|]; simpl in *; [|done].
  destruct (is_None section); simpl in *; [done|].
  destruct (entries !! "current_units") as [section_units|]; simpl in *; [|done].
  destruct (is_None section_units); simpl in *; [done|].
  match goal with
  | |- context [for_each param_current ?body ?w1] =>
      destruct (for_each_prints body param_current) with (w := w1)
        as (res & new & Hres & Hloop & Hnew & Hlen)
  end.
  - intros [param_key param_title] w0.
    destruct section as [| | | | | |data];
      try (exists (Raise TypeError), []; rewrite after_0_nil;
           repeat split; [done|constructor|simpl; lia]).
    destruct (data !! param_key) as [value|]; simpl.
    + destruct section_units as [| | | | | |data_units];
        try (exists (Raise TypeError), []; rewrite after_0_nil;
             repeat split; [done|constructor|simpl; lia]).
      destruct (data_units !! param_key) as [unit|]; simpl;
        eexists (Return tt), [_]; unfold after; rewrite Nat.add_0_r;
        repeat split; try done; repeat constructor.
    + eexists (Return tt), [_]; unfold after; rewrite Nat.add_0_r;
        repeat split; try done; repeat constructor.
  - exists res, (header_line city_name :: new). rewrite Hloop.
    unfold after. simpl. rewrite Nat.add_0_r, <- app_assoc. simpl.
    repeat split; [done|by constructor|lia].
Qed.

Lemma only_prints_counts (new : list event) :
  Forall (λ ev, is_print ev = true) new →
  gets new = 0 ∧ sleeps new = 0 ∧ prints new = List.length new.
Proof.
  unfold gets, sleeps, prints.
  induction 1 as [|ev new Hev _ (IHg & IHs & IHp)]; [done|].
  destruct ev; try done. simpl in *. rewrite !filter_cons. simpl.
  rewrite IHg, IHs. simpl. by rewrite IHp.
Qed.

(** X4. Whatever the payload, [print_weather] only prints: it sends no
    request and never sleeps, and it prints at most one header line and one
    line per metric of the metric set. *)
Theorem print_weather_only_prints city_name data_weather param_current w :
  let run := print_weather city_name data_weather param_current w in
  ∃ new,
    trace run.2 = trace w ++ new
    ∧ run.1 ≠ Unfinished
    ∧ requests run.2 = requests w
    ∧ gets new = 0
    ∧ sleeps new = 0
    ∧ prints new = List.length new
    ∧ List.length new ≤ S (List.length param_current).
Proof.
  intros run.
  destruct (print_weather_events city_name data_weather param_current w)
    as (res & new & Hres & Hrun & Hnew & Hlen).
  destruct (only_prints_counts new Hnew) as (Hg & Hs & Hp).
  exists new. unfold run. rewrite Hrun. simpl.
  repeat split; try done; lia.
Qed.

(** X5. A section that is present and not [None] passes the guard of
    [print_weather] even when it is not a mapping.  When [current] is such
    a value, the header is printed and the first metric raises a
    [TypeError] that nothing catches; with an empty metric set the call
    returns after the header. *)
Theorem print_weather_section_not_mapping city_name entries section
    section_units param_current w :
  entries !! "current" = Some section →
  is_None section = false →
  is_mapping section = false →
  entries !! "current_units" = Some section_units →
  is_None section_units = false →
  print_weather city_name (PyDict entries) param_current w
  = (match param_current with
     | [] => Return tt
     | _ :: _ => Raise TypeError
     end,
     after w 0 [header_line city_name]).
Proof.
  intros Hsection Hnone Hmap Hunits Hnone'.
  unfold print_weather. run. rewrite Hsection, Hunits. simpl.
  rewrite Hnone. simpl. rewrite Hnone'. simpl.
  unfold after. rewrite Nat.add_0_r.
  destruct param_current as [|[param_key param_title] rest]; [done|].
  simpl. run. destruct section; done.
Qed.

Lemma print_weather_section_not_mapping_witness :
  print_weather "Moscow"
    (PyDict {[ "current" := PyStr "n/a"; "current_units" := PyStr "n/a" ]})
    PARAM_CURRENT_DEFAULT world0
  = (Raise TypeError, after world0 0 [header_line "Moscow"]).
Proof.
  apply (print_weather_section_not_mapping "Moscow"
           {[ "current" := PyStr "n/a"; "current_units" := PyStr "n/a" ]}
           (PyStr "n/a") (PyStr "n/a") PARAM_CURRENT_DEFAULT world0);
    reflexivity.
Defined.

(** ** Further properties of the poller *)

(** One polling cycle: fetch, present, sleep, with no handler around any
    of them. *)
Lemma weather_loop_step client city interval_sec param_current n w c :
  CITY_COORD !! city = Some c →
  weather_loop (S n) client city interval_sec param_current w
  = match fetch_api client c param_current w with
    | (Return data_weather, w1) =>
        match print_weather (Text.capitalize city) data_weather param_current w1 with
        | (Return _, w2) =>
            if float_overflows interval_sec then (Raise OverflowError, w2)
            else weather_loop n client city interval_sec param_current
                   (after w2 0 [EvSleep interval_sec])
        | (Raise e, w2) => (Raise e, w2)
        | (Unfinished, w2) => (Unfinished, w2)
        end
    | (Raise e, w1) => (Raise e, w1)
    | (Unfinished, w1) => (Unfinished, w1)
    end.
Proof.
  intros Hc. simpl. unfold mbind, M_bind. rewrite Hc. simpl.
  destruct (fetch_api client c param_current w) as [[data|e|] w1]; try done.
  destruct (print_weather (Text.capitalize city) data param_current w1)
    as [[[]|e|] w2]; try done.
  unfold sleep. destruct (float_overflows interval_sec); [done|].
  unfold emit, after. simpl. by rewrite Nat.add_0_r.
Qed.

Lemma poller_event_prints city_coord param_current interval_sec new :
  Forall (λ ev, is_print ev = true) new →
  Forall (poller_event city_coord param_current interval_sec) new.
Proof.
  intros Hnew. eapply Forall_impl; [exact Hnew|].
  intros ev Hev. by destruct ev.
Qed.

(** Every run of the polling loop, as far as the world goes. *)
Lemma weather_loop_events client city interval_sec param_current c n : ∀ w,
  CITY_COORD !! city = Some c →
  ∃ res new,
    weather_loop n client city interval_sec param_current w
    = (res, after w (gets new) new)
    ∧ res ≠ Return tt
    ∧ Forall (poller_event c param_current interval_sec) new
    ∧ gets new ≤ 5 * n
    ∧ (n ≠ 0 →
       ∃ rest, new = EvGet URL_API_OPEN_METEO (request_params c param_current)
                       :: rest).
Proof.
  induction n as [|n IH]; intros w Hc.
  - exists Unfinished, []. simpl. unfold unfinished. rewrite after_0_nil.
    repeat split; [done|constructor|done|done].
  - rewrite (weather_loop_step _ _ _ _ _ _ c) by done.
    destruct (fetch_api_events client c param_current w)
      as (res1 & new1 & Hres1 & -> & Hgets1 & _ & _ & Hev1 & Hhead).
    destruct res1 as [data|e|]; [| |done].
    + destruct (print_weather_events (Text.capitalize city) data param_current
                  (after w (gets new1) new1))
        as (res2 & new2 & Hres2 & -> & Hnew2 & _).
      destruct (only_prints_counts new2 Hnew2) as (Hgets2 & _ & _).
      destruct res2 as [[]|e|]; [| |done].
      * destruct (float_overflows interval_sec).
        { exists (Raise OverflowError), (new1 ++ new2).
          rewrite !after_after, !gets_app, Hgets2.
          split; [|split; [|split; [|split]]].
          - do 2 f_equal; lia.
          - done.
          - apply Forall_app. split; [apply Hev1|by apply poller_event_prints].
          - lia.
          - intros _. destruct Hhead as [rest ->]. by eexists. }
        destruct (IH (after (after (after w (gets new1) new1) 0 new2) 0
                         [EvSleep interval_sec]) Hc)
          as (res3 & new3 & -> & Hres3 & Hev3 & Hgets3 & _).
        exists res3, (new1 ++ new2 ++ [EvSleep interval_sec] ++ new3).
        rewrite !after_after, !gets_app, Hgets2.
        change (gets [EvSleep interval_sec]) with 0.
        split; [|split; [|split; [|split]]].
        -- do 2 f_equal; lia.
        -- done.
        -- apply Forall_app. split; [apply Hev1|].
           apply Forall_app. split; [by apply poller_event_prints|].
           apply Forall_app. split; [|done].
           constructor; [by right|constructor].
        -- lia.
        -- intros _. destruct Hhead as [rest ->]. by eexists.
      * exists (Raise e), (new1 ++ new2).
        rewrite !after_after, !gets_app, Hgets2.
        split; [|split; [|split; [|split]]].
        -- do 2 f_equal; lia.
        -- done.
        -- apply Forall_app. split; [apply Hev1|by apply poller_event_prints].
        -- lia.
        -- intros _. destruct Hhead as [rest ->]. by eexists.
    + exists (Raise e), new1.
      split; [done|]. split; [done|]. split; [apply Hev1|]. split; [lia|done].
Qed.

(** X6. The poller never returns: run for any number of cycles, against
    any client, [weather] has either raised an exception or is still
    polling. *)
Theorem weather_never_returns n client city interval_sec param_current w :
  (weather n client city interval_sec param_current w).1 ≠ Return tt.
Proof.
  unfold weather. case_bool_decide as Hcity; [done|].
  destruct (CITY_COORD !! Text.lower city) as [c|] eqn:Hc; [|done].
  destruct (weather_loop_events client (Text.lower city) interval_sec
              (default PARAM_CURRENT_DEFAULT param_current) c n w Hc)
    as (res & new & -> & Hres & _).
  done.
Qed.

(** X7. Everything the poller does for a city of the table stays within
    its brief: every request goes to the provider's URL with the
    coordinate of that city and the keys of the metric set, every sleep is
    the retry delay of 3 or the polling interval, and [n] cycles send at
    most [5 * n] requests. *)
Theorem weather_stays_on_target n client city interval_sec param_current c w :
  CITY_COORD !! Text.lower city = Some c →
  let spec := default PARAM_CURRENT_DEFAULT param_current in
  let run := weather n client city interval_sec param_current w in
  ∃ new,
    trace run.2 = trace w ++ new
    ∧ requests run.2 = requests w + gets new
    ∧ gets new ≤ 5 * n
    ∧ Forall (poller_event c spec interval_sec) new.
Proof.
  intros Hc spec run. unfold run, weather.
  rewrite bool_decide_eq_false_2 by (rewrite Hc; done).
  destruct (weather_loop_events client (Text.lower city) interval_sec spec c n w Hc)
    as (res & new & Hrun & _ & Hev & Hgets & _).
  fold spec. rewrite Hrun. by exists new.
Qed.

Lemma weather_stays_on_target_witness :
  let run := weather 4 third_time_lucky "MoScOw" 60 None world0 in
  ∃ new,
    trace run.2 = [] ++ new
    ∧ requests run.2 = 0 + gets new
    ∧ gets new ≤ 5 * 4
    ∧ Forall (poller_event moscow_coord PARAM_CURRENT_DEFAULT 60) new.
Proof.
  apply (weather_stays_on_target 4 third_time_lucky "MoScOw" 60 None
           moscow_coord world0).
  reflexivity.
Defined.

(** X8. [main] polls Moscow: the first thing it does is a request to the
    provider for Moscow's coordinate and the three default keys, and all
    it does afterwards is requests of that same kind, console lines and
    sleeps of 3 or 5. *)
Theorem main_polls_moscow n client w :
  let run := main (S n) client w in
  ∃ rest,
    trace run.2
    = trace w
      ++ EvGet "https://api.open-meteo.com/v1/forecast"
           {| latitude := (55751244 # 1000000)%Q;
              longitude := (37618423 # 1000000)%Q;
              current := "temperature_2m,relative_humidity_2m,pressure_msl" |}
         :: rest
    ∧ Forall (poller_event moscow_coord PARAM_CURRENT_DEFAULT 5) rest
    ∧ run.1 ≠ Return tt.
Proof.
  intros run. unfold run, main, weather.
  rewrite bool_decide_eq_false_2 by done.
  destruct (weather_loop_events client (Text.lower "moscow") 5
              PARAM_CURRENT_DEFAULT moscow_coord (S n) w eq_refl)
    as (res & new & Hrun & Hres & Hev & _ & Hhead).
  destruct Hhead as [rest ->]; [done|].
  simpl default. rewrite Hrun. exists rest. simpl.
  apply Forall_cons in Hev as [_ Hev]. done.
Qed.

(** X9. The poller has no handler around the presenter.  When, in any
    cycle, the first answer is a parsed body that [print_weather] turns
    down (a JSON value that is not an object, or an object in which a
    section is missing or null), the exception leaves [weather] after that
    one request: nothing is printed, the interval is not slept and no
    further cycle runs. *)
Theorem weather_dies_on_rejected_payload client city interval_sec param_current
    n m w0 w data_weather e :
  weather n client city interval_sec param_current w0 = (Unfinished, w) →
  attempt_payload (client (requests w)) = Some data_weather →
  presenter_rejects data_weather = Some e →
  ∃ c,
    CITY_COORD !! Text.lower city = Some c
    ∧ weather (n + S m) client city interval_sec param_current w0
      = (Raise e,
         after w 1 [EvGet URL_API_OPEN_METEO
                      (request_params c
                         (default PARAM_CURRENT_DEFAULT param_current))]).
Proof.
  intros Hn Hok Hrej. unfold weather in *.
  case_bool_decide as Hcity; [done|].
  destruct (CITY_COORD !! Text.lower city) as [c|] eqn:Hc; [|done].
  exists c. split; [done|].
  rewrite (weather_loop_resume _ _ _ _ _ _ _ _ Hn).
  rewrite (weather_loop_step _ _ _ _ _ _ c) by done.
  rewrite (fetch_api_success_at _ _ _ _ 0 data_weather);
    [|lia|intros i Hi; lia|by rewrite Nat.add_0_r].
  simpl failed_rounds. simpl app.
  by rewrite (print_weather_rejects _ _ _ _ e).
Qed.

Lemma weather_dies_on_rejected_payload_witness :
  ∃ c,
    CITY_COORD !! Text.lower "Moscow" = Some c
    ∧ weather (0 + 3) (λ _, response_ok error_document) "Moscow" 5 None world0
      = (Raise malformed,
         after world0 1 [EvGet URL_API_OPEN_METEO
                           (request_params c
                              (default PARAM_CURRENT_DEFAULT None))]).
Proof.
  apply (weather_dies_on_rejected_payload (λ _, response_ok error_document)
           "Moscow" 5 None 0 2 world0 world0 error_document malformed);
    reflexivity.
Defined.

(** The run of [print_weather] on a payload with both sections. *)
Lemma print_weather_valid_run city_name entries data data_units param_current w :
  entries !! "current" = Some (PyDict data) →
  entries !! "current_units" = Some (PyDict data_units) →
  print_weather city_name (PyDict entries) param_current w
  = (Return tt,
     after w 0 (header_line city_name
                  :: map (metric_line data data_units) param_current)).
Proof.
  intros Hdata Hunits. unfold print_weather. run. rewrite Hdata, Hunits. simpl.
  unfold after. rewrite Nat.add_0_r.
  change (header_line city_name :: ?l) with ([header_line city_name] ++ l).
  rewrite app_assoc. unfold header_line.
  generalize (trace w ++ [EvPrint [Lit (Text.nl +:+ "Погода в городе " +:+ city_name)]]).
  generalize (requests w).
  induction param_current as [|[param_key param_title] rest IH]; intros k t.
  - simpl. by rewrite app_nil_r.
  - rewrite (for_each_cons _ _ _ _
      {| requests := k;
         trace := t ++ [metric_line data data_units (param_key, param_title)] |}).
    + rewrite IH. simpl. by rewrite <- app_assoc.
    + simpl. destruct (data !! param_key), (data_units !! param_key); done.
Qed.

Lemma metric_lines_are_prints data data_units (param_current : MetricSpec) :
  Forall (λ ev, is_print ev = true)
    (map (metric_line data data_units) param_current).
Proof.
  induction param_current as [|[param_key param_title] rest IH]; [constructor|].
  simpl. constructor; [|done].
  by destruct (data !! param_key), (data_units !! param_key).
Qed.

(** Cycles that each get a well-formed payload at the first attempt. *)
Lemma weather_loop_good_cycles client city interval_sec param_current c n : ∀ w,
  CITY_COORD !! city = Some c →
  float_overflows interval_sec = false →
  (∀ i, i < n →
     ∃ data_weather,
       attempt_payload (client (requests w + i)) = Some data_weather
       ∧ well_formed data_weather) →
  ∃ new,
    weather_loop n client city interval_sec param_current w
    = (Unfinished, after w n new)
    ∧ gets new = n
    ∧ sleeps new = n
    ∧ prints new = n * S (List.length param_current)
    ∧ Forall (λ ev, ∀ seconds, ev = EvSleep seconds → seconds = interval_sec) new.
Proof.
  induction n as [|n IH]; intros w Hc Hfits Hgood.
  - exists []. simpl. unfold unfinished. rewrite after_0_nil.
    repeat split; try done; constructor.
  - destruct (Hgood 0) as (data_weather & Hok & entries & data & data_units
                             & -> & Hdata & Hunits); [lia|].
    rewrite (weather_loop_step _ _ _ _ _ _ c) by done.
    rewrite (fetch_api_success_at _ _ _ _ 0 (PyDict entries)); [|lia|intros i Hi; lia|done].
    simpl failed_rounds. simpl app.
    rewrite (print_weather_valid_run _ _ data data_units) by done.
    rewrite Hfits, !after_after. simpl Nat.add.
    set (cycle := _ ++ _ ++ [EvSleep interval_sec]).
    destruct (IH (after w 1 cycle) Hc Hfits) as (new & -> & Hg & Hs & Hp & Hsl).
    { intros i Hi. simpl. replace (requests w + 1 + i) with (requests w + S i) by lia.
      apply Hgood. lia. }
    exists (cycle ++ new). rewrite after_after.
    pose proof (metric_lines_are_prints data data_units param_current) as Hlines.
    destruct (only_prints_counts _ Hlines) as (Hlg & Hls & Hlp).
    rewrite length_map in Hlp.
    rewrite gets_app, sleeps_app, prints_app, Hg, Hs, Hp. unfold cycle.
    rewrite !gets_app, !sleeps_app, !prints_app.
    change (header_line (Text.capitalize city) :: ?l)
      with ([header_line (Text.capitalize city)] ++ l).
    rewrite !gets_app, !sleeps_app, !prints_app, Hlg, Hls, Hlp.
    unfold gets, sleeps, prints. simpl.
    split; [done|]. split; [lia|]. split; [lia|]. split; [lia|].
    constructor; [done|]. constructor; [done|].
    apply Forall_app. split; [|done].
    apply Forall_app. split.
    + eapply Forall_impl; [exact Hlines|]. intros ev Hev seconds ->. done.
    + constructor; [|constructor]. intros seconds Heq. by simplify_eq.
Qed.

(** X10. For an interval that fits a float, as long as the provider
    answers every first attempt with a payload that has both sections, the
    poller keeps going: after [n] cycles it is still polling, having sent
    exactly [n] requests, printed a header and one line per metric in each
    cycle, and slept [n] times, each time for the interval. *)
Theorem weather_keeps_polling client city interval_sec param_current c n w :
  CITY_COORD !! Text.lower city = Some c →
  float_overflows interval_sec = false →
  (∀ i, i < n →
     ∃ data_weather,
       attempt_payload (client (requests w + i)) = Some data_weather
       ∧ well_formed data_weather) →
  let spec := default PARAM_CURRENT_DEFAULT param_current in
  let run := weather n client city interval_sec param_current w in
  ∃ new,
    run = (Unfinished, after w n new)
    ∧ gets new = n
    ∧ sleeps new = n
    ∧ prints new = n * S (List.length spec)
    ∧ Forall (λ ev, ∀ seconds, ev = EvSleep seconds → seconds = interval_sec) new.
Proof.
  intros Hc Hfits Hgood spec run. unfold run, weather.
  rewrite bool_decide_eq_false_2 by (rewrite Hc; done).
  by apply (weather_loop_good_cycles _ _ _ _ c).
Qed.

Lemma weather_keeps_polling_witness :
  let run := weather 3 always_ok "moscow" 60 None world0 in
  ∃ new,
    run = (Unfinished, after world0 3 new)
    ∧ gets new = 3
    ∧ sleeps new = 3
    ∧ prints new = 3 * S (List.length PARAM_CURRENT_DEFAULT)
    ∧ Forall (λ ev, ∀ seconds, ev = EvSleep seconds → seconds = 60%Z) new.
Proof.
  apply (weather_keeps_polling always_ok "moscow" 60 None moscow_coord 3 world0).
  - reflexivity.
  - reflexivity.
  - intros i Hi. exists sample_payload. split; [reflexivity|].
    unfold well_formed, sample_payload. eexists _, _, _.
    split; [reflexivity|]. split; reflexivity.
Defined.

Lemma split_join_keys_witness :
  split_on comma
    (Text.join "," ["pressure_msl"; "temperature_2m"; "pressure_msl"])
  = ["pressure_msl"; "temperature_2m"; "pressure_msl"].
Proof.
  apply (split_join_keys ["pressure_msl"; "temperature_2m"; "pressure_msl"]).
  - discriminate.
  - repeat constructor.
Defined.

(** X12. The poller has no handler around the fetcher either: whatever
    exception leaves [fetch_api] in a cycle, the exhaustion [ValueError] or
    one that escaped the retry loop, leaves [weather] in the world where it
    was raised. *)
Theorem weather_fetch_failure_is_fatal client city interval_sec param_current
    c n m w0 w e w' :
  weather n client city interval_sec param_current w0 = (Unfinished, w) →
  CITY_COORD !! Text.lower city = Some c →
  fetch_api client c (default PARAM_CURRENT_DEFAULT param_current) w
  = (Raise e, w') →
  weather (n + S m) client city interval_sec param_current w0 = (Raise e, w').
Proof.
  intros Hn Hc Hfetch. unfold weather in *.
  rewrite bool_decide_eq_false_2 in * by (rewrite Hc; done).
  rewrite (weather_loop_resume _ _ _ _ _ _ _ _ Hn).
  by apply (weather_loop_fetch_raises _ _ _ _ _ _ c).
Qed.

Lemma weather_fetch_failure_is_fatal_witness :
  let w := (weather 1 ok_then_binary "moscow" 5 None world0).2 in
  weather (1 + 3) ok_then_binary "moscow" 5 None world0
  = (Raise (OtherError "'utf-8' codec can't decode byte 0xff"),
     (fetch_api ok_then_binary moscow_coord PARAM_CURRENT_DEFAULT w).2).
Proof.
  intros w.
  apply (weather_fetch_failure_is_fatal ok_then_binary "moscow" 5 None
           moscow_coord 1 2 world0 w);
    reflexivity.
Defined.

(** X13. When [current] is a mapping and [current_units] is present but
    not one, the presenter prints the header and a diagnostic for every
    leading metric whose key [current] lacks, and the first metric whose
    key [current] holds raises a [TypeError] that nothing catches: the
    output is cut short there. *)
Theorem print_weather_units_not_mapping city_name entries data section_units
    missing param rest w :
  entries !! "current" = Some (PyDict data) →
  entries !! "current_units" = Some section_units →
  is_None section_units = false →
  is_mapping section_units = false →
  Forall (λ p : string * string, data !! p.1 = None) missing →
  is_Some (data !! param.1) →
  print_weather city_name (PyDict entries) (missing ++ param :: rest) w
  = (Raise TypeError,
     after w 0 (header_line city_name :: map (metric_line data ∅) missing)).
Proof.
  intros Hdata Hunits Hnone Hmap Hmissing [value Hvalue].
  unfold print_weather. run. rewrite Hdata, Hunits. simpl.
  rewrite Hnone. simpl.
  unfold after. rewrite Nat.add_0_r.
  change (header_line city_name :: ?l) with ([header_line city_name] ++ l).
  rewrite app_assoc. unfold header_line.
  generalize (trace w ++ [EvPrint [Lit (Text.nl +:+ "Погода в городе " +:+ city_name)]]).
  generalize (requests w).
  induction Hmissing as [|[param_key param_title] missing Hkey _ IH]; intros k t.
  - destruct param as [param_key param_title]. simpl in *.
    unfold mbind, M_bind. rewrite Hvalue. simpl.
    rewrite app_nil_r. destruct section_units; done.
  - simpl in Hkey.
    rewrite <- app_comm_cons.
    rewrite (for_each_cons _ _ _ _
      {| requests := k;
         trace := t ++ [metric_line data ∅ (param_key, param_title)] |}).
    + rewrite IH. simpl. by rewrite <- app_assoc.
    + simpl. rewrite Hkey. done.
Qed.

Lemma print_weather_units_not_mapping_witness :
  print_weather "Moscow"
    (PyDict {[ "current" := PyDict {[ "pressure_msl" := PyInt 1013 ]};
               "current_units" := PyStr "metric" ]})
    ([("temperature_2m", "температура"); ("relative_humidity_2m", "влажность")]
       ++ ("pressure_msl", "давление") :: [("temperature_2m", "температура")])
    world0
  = (Raise TypeError,
     after world0 0
       (header_line "Moscow"
          :: map (metric_line {[ "pressure_msl" := PyInt 1013 ]} ∅)
               [("temperature_2m", "температура");
                ("relative_humidity_2m", "влажность")])).
Proof.
  apply (print_weather_units_not_mapping "Moscow"
           {[ "current" := PyDict {[ "pressure_msl" := PyInt 1013 ]};
              "current_units" := PyStr "metric" ]}
           {[ "pressure_msl" := PyInt 1013 ]} (PyStr "metric")
           [("temperature_2m", "температура"); ("relative_humidity_2m", "влажность")]
           ("pressure_msl", "давление") [("temperature_2m", "температура")]
           world0).
  - reflexivity.
  - reflexivity.
  - reflexivity.
  - reflexivity.
  - repeat constructor.
  - by eexists.
Defined.

(** An interval that does not fit a float ends the poller at the first
    interval sleep, after a complete first cycle. *)
Example weather_dies_on_huge_interval :
  let run := weather 3 always_ok "moscow" (10 ^ 400) None world0 in
  run.1 = Raise OverflowError
  ∧ requests run.2 = 1
  ∧ prints (trace run.2) = 4
  ∧ sleeps (trace run.2) = 0.
Proof. vm_compute. done. Qed.
